(** * FindIt: client data cache and derived views

  A shallow embedding of the non-presentational logic of the FindIt
  front end and the properties its design document states about it:

  - [DataCache]: the in-memory store with per-entry expiry
    (hooks/useDataCache, class [DataCache]);
  - [UseCachedData]: the cached-fetch controller (hook [useCachedData]);
  - [Timeline], [StoredItemsPage], [ImportantDocumentsPage]: the
    derived views of the two list pages (grouping, recency flag,
    filtering) and the debounced suggestion effect.

  Conventions.  Timestamps are milliseconds since the epoch, in [Z].
  JavaScript's [null]/[undefined] are [None].  A string is a sequence of
  UTF-16 code units below 256, the Latin-1 range, one [ascii] each, so
  that [String.length] is [.length].  React state cells and refs become
  fields of a record that is passed explicitly. *)

From Stdlib Require Import ZArith QArith String Ascii List Bool Lia.
From Stdlib Require Import Sorting.Sorted Sorting.Permutation.
From Stdlib Require Import Structures.OrderedTypeEx.
From stdpp Require Import base option gmap strings list.

Local Open Scope Z_scope.

(* ===================================================================== *)
(** * The JavaScript the pages rely on *)
(* ===================================================================== *)

Module Js.

(** What a [throw] or a rejected promise carries, as a [catch] block
    sees it: [null] or [undefined], or any other value with what reading
    its [message] property gives (a string, or [undefined]). *)
Inductive thrown : Type :=
| Nullish
| Value (message : option string).

(** [new Error(message)], and the [TypeError]s the engine throws. *)
Definition Error (message : string) : thrown := Value (Some message).

(** Outcome of a computation that may [throw]: a value, or what was
    thrown. *)
Inductive exc (A : Type) : Type :=
| Ok (a : A)
| Throw (e : thrown).
Arguments Ok {A} a.
Arguments Throw {A} e.

#[global] Instance exc_ret : MRet exc := fun A a => Ok a.

#[global] Instance exc_bind : MBind exc := fun A B f m =>
  match m with
  | Ok a => f a
  | Throw e => Throw e
  end.

(** ** Strings *)

Definition code (c : ascii) : nat := nat_of_ascii c.

(** The lower-case mapping of Unicode on the Latin-1 range: [A]-[Z] and
    the capitals from U+00C0 to U+00DE, the multiplication sign U+00D7
    apart, move 32 code units up; nothing else changes. *)
Definition lower_char (c : ascii) : ascii :=
  if (((65 <=? code c) && (code c <=? 90))
      || ((192 <=? code c) && (code c <=? 222) && negb (code c =? 215)))%nat
  then ascii_of_nat (code c + 32)
  else c.

(** [s.toLowerCase()] *)
Fixpoint toLowerCase (s : string) : string :=
  match s with
  | EmptyString => EmptyString
  | String c s' => String (lower_char c) (toLowerCase s')
  end.

(** [s.startsWith(p)] *)
Fixpoint startsWith (s p : string) {struct p} : bool :=
  match p, s with
  | EmptyString, _ => true
  | String _ _, EmptyString => false
  | String a p', String b s' => Ascii.eqb a b && startsWith s' p'
  end.

(** [s.includes(sub)] *)
Fixpoint includes (s sub : string) : bool :=
  startsWith s sub ||
  match s with
  | EmptyString => false
  | String _ s' => includes s' sub
  end.

(** White space and line terminators as [trim] sees them, on the
    Latin-1 range: tab, line feed, vertical tab, form feed, carriage
    return, space and the no-break space U+00A0. *)
Definition is_space (c : ascii) : bool :=
  (((9 <=? code c) && (code c <=? 13)) || (code c =? 32) || (code c =? 160))%nat.

Fixpoint trimStart (s : string) : string :=
  match s with
  | EmptyString => EmptyString
  | String c s' => if is_space c then trimStart s' else s
  end.

Fixpoint trimEnd (s : string) : string :=
  match s with
  | EmptyString => EmptyString
  | String c s' =>
      match trimEnd s' with
      | EmptyString => if is_space c then EmptyString else String c EmptyString
      | t => String c t
      end
  end.

(** [s.trim()] *)
Definition trim (s : string) : string := trimEnd (trimStart s).

(** Every character is white space. *)
Fixpoint all_space (s : string) : bool :=
  match s with
  | EmptyString => true
  | String c s' => is_space c && all_space s'
  end.

Definition starts_with_space (s : string) : bool :=
  match s with
  | EmptyString => false
  | String c _ => is_space c
  end.

Fixpoint ends_with_space (s : string) : bool :=
  match s with
  | EmptyString => false
  | String c EmptyString => is_space c
  | String _ s' => ends_with_space s'
  end.

(** ** [Array.prototype.sort]

    The sort is stable, and for a consistent comparator its result is
    determined by that: the elements in ascending order of [cmp], equal
    ones in their original order.  Insertion from the right computes it. *)
Section Sort.
Context {A : Type} (cmp : A -> A -> Z).

Fixpoint insert (x : A) (l : list A) : list A :=
  match l with
  | [] => [x]
  | y :: l' => if cmp x y <=? 0 then x :: l else y :: insert x l'
  end.

Definition sort (l : list A) : list A := fold_right insert [] l.

(** [a] may stand before [b]. *)
Definition precedes (a b : A) : Prop := cmp a b <= 0.

End Sort.





(** ** Plain objects used as dictionaries

    The own properties of an object literal [{}] that is only ever
    assigned arrays, in creation order. *)
Definition object (A : Type) : Type := list (string * A).

(** The properties every plain object inherits from [Object.prototype]. *)
Definition prototype_keys : list string :=
  [ "constructor"; "__defineGetter__"; "__defineSetter__"; "hasOwnProperty";
    "__lookupGetter__"; "__lookupSetter__"; "isPrototypeOf";
    "propertyIsEnumerable"; "toString"; "valueOf"; "__proto__";
    "toLocaleString" ]%string.

Definition is_prototype_key (key : string) : bool :=
  existsb (String.eqb key) prototype_keys.

(** What [acc[key]] evaluates to. *)
Inductive property (A : Type) : Type :=
| Own (a : A)
| Inherited
| Undefined.
Arguments Own {A} a.
Arguments Inherited {A}.
Arguments Undefined {A}.

Fixpoint own {A : Type} (o : object A) (key : string) : option A :=
  match o with
  | [] => None
  | (k, a) :: o' => if String.eqb k key then Some a else own o' key
  end.

Definition get {A : Type} (o : object A) (key : string) : property A :=
  match own o key with
  | Some a => Own a
  | None => if is_prototype_key key then Inherited else Undefined
  end.

(** Replace the value of an existing own property. *)
Fixpoint update {A : Type} (o : object A) (key : string) (a : A) : object A :=
  match o with
  | [] => []
  | (k, b) :: o' =>
      if String.eqb k key then (k, a) :: o' else (k, b) :: update o' key a
  end.

(** The grouping step of the three [reduce] calls:
    [if (!acc[key]) acc[key] = []; acc[key].push(x); return acc].
    An inherited property is truthy and has no [push]. *)
Definition push_to {A : Type} (acc : object (list A)) (key : string) (x : A)
  : exc (object (list A)) :=
  match get acc key with
  | Own l => Ok (update acc key (l ++ [x]))
  | Undefined => Ok (acc ++ [(key, [x])])
  | Inherited => Throw (Error "acc[key].push is not a function")
  end.

(** [list.reduce((acc, x) => { ... acc[key(x)].push(x) ... }, {})] *)
Definition group_by {A : Type} (key : A -> string) (l : list A)
  : exc (object (list A)) :=
  fold_left (fun acc x => acc ← acc; push_to acc (key x) x) l (Ok []).

(** The keys of a list in order of first occurrence. *)
Fixpoint first_occurrences (keys : list string) : list string :=
  match keys with
  | [] => []
  | k :: keys' =>
      k :: List.filter (fun k' => negb (String.eqb k' k)) (first_occurrences keys')
  end.

(** The elements of [l] whose key is [k], in their original order. *)
Definition with_key {A : Type} (key : A -> string) (k : string) (l : list A)
  : list A :=
  List.filter (fun x => String.eqb (key x) k) l.

(** What grouping amounts to: one property per key, created in order of
    first occurrence, holding the elements with that key in their
    original order. *)
Definition grouped {A : Type} (key : A -> string) (l : list A)
  : object (list A) :=
  map (fun k => (k, with_key key k l)) (first_occurrences (map key l)).

(** Array indices, the keys an object enumerates first: the canonical
    decimal numerals below [2^32 - 1]. *)
Definition digit (c : ascii) : option N :=
  if ((48 <=? code c) && (code c <=? 57))%nat
  then Some (N.of_nat (code c - 48))
  else None.

Fixpoint decimal (s : string) (acc : N) : option N :=
  match s with
  | EmptyString => Some acc
  | String c s' =>
      match digit c with
      | Some d => decimal s' (10 * acc + d)%N
      | None => None
      end
  end.

Definition array_index (s : string) : option N :=
  match s with
  | EmptyString => None
  | String "0" (String _ _) => None
  | _ =>
      match decimal s 0%N with
      | Some n => if (n <=? 4294967294)%N then Some n else None
      | None => None
      end
  end.

Definition is_array_index (s : string) : bool :=
  match array_index s with Some _ => true | None => false end.

Definition index_of (s : string) : Z :=
  match array_index s with Some n => Z.of_N n | None => 0 end.

(** [Object.entries(o)]: array indices in ascending numeric order, then
    the other keys in creation order. *)
Definition entries {A : Type} (o : object A) : list (string * A) :=
  sort (fun a b => index_of (fst a) - index_of (fst b))
       (List.filter (fun e => is_array_index (fst e)) o)
  ++ List.filter (fun e => negb (is_array_index (fst e))) o.

End Js.

(* ===================================================================== *)
(** * The cache store ([class DataCache]) *)
(* ===================================================================== *)

Module DataCache.
Section Store.
(** [K] is the type of the keys, [V] of the values other than [null] and
    [undefined]: what a client stores and what [get] returns is an
    [option V], [None] standing for [null] and [undefined] alike. *)
Context {K : Type} `{Countable K} {V : Type}.

(** [this.cache] and [this.timestamps], two [Map]s. *)
Record t : Type := mk {
  cache : gmap K (option V);
  timestamps : gmap K Z
}.

(** [constructor()] *)
Definition new : t := mk ∅ ∅.

(** [set(key, data, ttl = 30000)]; [now] is the value of [Date.now()]. *)
Definition set (now : Z) (key : K) (data : option V) (ttl : Z) (c : t) : t :=
  mk (<[key := data]> (cache c)) (<[key := now + ttl]> (timestamps c)).

Definition default_ttl : Z := 30000.

(** [invalidate(key)] *)
Definition invalidate (key : K) (c : t) : t :=
  mk (delete key (cache c)) (delete key (timestamps c)).

(** [clear()] *)
Definition clear (c : t) : t := mk ∅ ∅.

(** [!expiry || Date.now() > expiry]: an absent expiry is [undefined],
    and the number [0] is falsy as well. *)
Definition expired (now : Z) (expiry : option Z) : bool :=
  match expiry with
  | None => true
  | Some e => (e =? 0) || (now >? e)
  end.

(** [this.cache.get(key)]: the stored value, [undefined] for a key the
    map does not hold. *)
Definition Map_get (m : gmap K (option V)) (key : K) : option V :=
  match m !! key with
  | Some data => data
  | None => None
  end.

(** [get(key)]: the store after the call and the returned value. *)
Definition get (now : Z) (key : K) (c : t) : t * option V :=
  let expiry := timestamps c !! key in
  if expired now expiry
  then (mk (delete key (cache c)) (delete key (timestamps c)), None)
  else (c, Map_get (cache c) key).

(** The operations a client can perform, each at some wall-clock time. *)
Inductive op : Type :=
| OpSet (key : K) (data : option V) (ttl : Z)
| OpGet (key : K)
| OpInvalidate (key : K)
| OpClear.

Definition exec (now : Z) (o : op) (c : t) : t :=
  match o with
  | OpSet key data ttl => set now key data ttl c
  | OpGet key => fst (get now key c)
  | OpInvalidate key => invalidate key c
  | OpClear => clear c
  end.

(** A history is a list of timed operations, oldest first. *)
Definition run (h : list (Z * op)) (c : t) : t :=
  fold_left (fun c e => exec (fst e) (snd e) c) h c.

(** The two maps hold the same keys. *)
Definition aligned (c : t) : Prop := dom (cache c) = dom (timestamps c).

(** What the design document expects of a read of an expired entry at
    time [now]: the read returns absent, the entry is gone from both
    maps, and any later read is absent as well. *)
Definition absent_after_get (now : Z) (key : K) (c : t) : Prop :=
  snd (get now key c) = None
  /\ cache (fst (get now key c)) !! key = None
  /\ timestamps (fst (get now key c)) !! key = None
  /\ forall later, snd (get later key (fst (get now key c))) = None.

(** The key an operation addresses; [clear] addresses them all. *)
Definition op_key (o : op) : option K :=
  match o with
  | OpSet key _ _ => Some key
  | OpGet key => Some key
  | OpInvalidate key => Some key
  | OpClear => None
  end.

End Store.
Arguments t K {_ _} V.
End DataCache.

(* ===================================================================== *)
(** * The cached-fetch controller ([useCachedData]) *)
(* ===================================================================== *)

Module UseCachedData.
Import Js.

Section Hook.
(** [T] is the type of the payload the wrapped operation delivers;
    [truthy] is JavaScript's truthiness on it (every array and object is
    truthy). *)
Context {T : Type} (truthy : T -> bool).

(** The [{success, data, error}] object an operation resolves to.  An
    absent [data] or [error] is [None]. *)
Record result : Type := Result {
  success : bool;
  rdata : option T;
  rerror : option string
}.

(** What [await fetchFunction()] produces: the promise resolves to a
    result object, or rejects with some value, an [Error] or not. *)
Inductive outcome : Type :=
| Resolved (r : result)
| Rejected (reason : thrown).

(** The hook's cells: the three [useState] cells, the two [useRef] cells,
    and a ghost counter of the invocations of [fetchFunction] so far. *)
Record hook : Type := Hook {
  data : option T;
  loading : bool;
  error : option string;
  lastFetchTime : Z;
  cachedData : option T;
  calls : nat
}.

(** The hook's parameters.  The wrapped operation is any sequence of
    outcomes: [fetchFunction n] is what its [n]-th invocation produces. *)
Context (fetchFunction : nat -> outcome) (cacheTime : Z).

(** [useState(null)], [useState(true)], [useState(null)], [useRef(0)],
    [useRef(null)]. *)
Definition init : hook :=
  {| data := None; loading := true; error := None;
     lastFetchTime := 0; cachedData := None; calls := 0%nat |}.

(** Computations over the hook's cells that may throw. *)
Definition M (A : Type) : Type := hook -> exc A * hook.

#[global] Instance M_ret : MRet M := fun A a s => (Ok a, s).

#[global] Instance M_bind : MBind M := fun A B f m s =>
  match m s with
  | (Ok a, s') => f a s'
  | (Throw e, s') => (Throw e, s')
  end.

Definition throw {A : Type} (e : thrown) : M A :=
  fun s => (Throw e, s).

(** [try { body } catch (err) { handler(err) } finally { final }] *)
Definition try_catch_finally {A : Type}
    (body : M A) (handler : thrown -> M A) (final : M unit) : M A :=
  fun s =>
    let '(r, s1) :=
      match body s with
      | (Ok a, s') => (Ok a, s')
      | (Throw e, s') => handler e s'
      end in
    match final s1 with
    | (Ok _, s2) => (r, s2)
    | (Throw e, s2) => (Throw e, s2)
    end.

Definition setData (v : option T) : M unit := fun s =>
  (Ok tt, {| data := v; loading := loading s; error := error s;
             lastFetchTime := lastFetchTime s; cachedData := cachedData s;
             calls := calls s |}).

Definition setLoading (b : bool) : M unit := fun s =>
  (Ok tt, {| data := data s; loading := b; error := error s;
             lastFetchTime := lastFetchTime s; cachedData := cachedData s;
             calls := calls s |}).

Definition setError (e : option string) : M unit := fun s =>
  (Ok tt, {| data := data s; loading := loading s; error := e;
             lastFetchTime := lastFetchTime s; cachedData := cachedData s;
             calls := calls s |}).

(** [lastFetchTime.current = t] *)
Definition set_lastFetchTime (t : Z) : M unit := fun s =>
  (Ok tt, {| data := data s; loading := loading s; error := error s;
             lastFetchTime := t; cachedData := cachedData s;
             calls := calls s |}).

(** [cachedData.current = v] *)
Definition set_cachedData (v : option T) : M unit := fun s =>
  (Ok tt, {| data := data s; loading := loading s; error := error s;
             lastFetchTime := lastFetchTime s; cachedData := v;
             calls := calls s |}).

(** [await fetchFunction()]: one more invocation; a rejection is thrown
    at the [await]. *)
Definition await_fetchFunction : M result := fun s =>
  let s' := {| data := data s; loading := loading s; error := error s;
               lastFetchTime := lastFetchTime s; cachedData := cachedData s;
               calls := S (calls s) |} in
  match fetchFunction (calls s) with
  | Resolved r => (Ok r, s')
  | Rejected reason => (Throw reason, s')
  end.

(** Truthiness of a possibly absent payload. *)
Definition js_truthy (v : option T) : bool :=
  match v with
  | Some d => truthy d
  | None => false
  end.

(** [!force && cachedData.current && (now - lastFetchTime.current) < cacheTime] *)
Definition fresh (force : bool) (now : Z) (s : hook) : bool :=
  negb force && js_truthy (cachedData s) && (now - lastFetchTime s <? cacheTime).

(** [result.error || 'Failed to fetch data'] *)
Definition error_or_default (r : result) : string :=
  match rerror r with
  | Some e => if String.eqb e "" then "Failed to fetch data"%string else e
  | None => "Failed to fetch data"%string
  end.

(** [err.message]: reading a property of [null] or [undefined] throws a
    [TypeError]. *)
Definition message_of (err : thrown) : M (option string) :=
  match err with
  | Nullish => throw (Error "Cannot read properties of null (reading 'message')")
  | Value message => mret message
  end.

(** [fetchData(force = false)]; [now] is the value [Date.now()] returns
    on entry.  A call runs to completion before the next one starts. *)
Definition fetchData (force : bool) (now : Z) : M (option T) :=
  fun s =>
  if fresh force now s then
    (setData (cachedData s) ;;
     setLoading false ;;
     mret (cachedData s)) s
  else
    (setLoading true ;;
     setError None ;;
     try_catch_finally
       (r ← await_fetchFunction;
        if success r then
          set_cachedData (rdata r) ;;
          set_lastFetchTime now ;;
          setData (rdata r) ;;
          mret (rdata r)
        else
          throw (Error (error_or_default r)))
       (fun err => message ← message_of err; setError message ;; mret None)
       (setLoading false)) s.

(** [refresh()] *)
Definition refresh (now : Z) : M (option T) := fetchData true now.

(** [invalidateCache()] *)
Definition invalidateCache : M unit :=
  set_cachedData None ;; set_lastFetchTime 0.

(** What the [catch] block receives after a failed invocation: the
    [Error] thrown for a result with [success] false, or the value the
    operation rejected with. *)
Definition failure (o : outcome) : option thrown :=
  match o with
  | Resolved r => if success r then None else Some (Error (error_or_default r))
  | Rejected reason => Some reason
  end.

(** Two successive [fetchData(false)] calls, at [now1] then [now2]: the
    pair issued at most one underlying call and returned the same data. *)
Definition idempotent_pair (s : hook) (now1 now2 : Z) : Prop :=
  let '(r1, s1) := fetchData false now1 s in
  let '(r2, s2) := fetchData false now2 s1 in
  (calls s2 <= calls s + 1)%nat /\ r1 = r2.

(** The invocations of the operation after the same two calls. *)
Definition pair_calls (s : hook) (now1 now2 : Z) : nat :=
  calls (snd (fetchData false now2 (snd (fetchData false now1 s)))).

(** A [refresh()] at [now] invoked the operation and stamped the cache
    with [now]. *)
Definition refresh_fetches_and_stamps (s : hook) (now : Z) : Prop :=
  let s' := snd (refresh now s) in
  calls s' = S (calls s) /\ lastFetchTime s' = now.

(** What a component can do with the hook after it mounted: the mount
    effect's [fetchData()], [refresh()] and [invalidateCache()], each
    running to completion. *)
Inductive action : Type :=
| Fetch (force : bool) (now : Z)
| Refresh (now : Z)
| InvalidateCache.

Definition perform (a : action) (s : hook) : hook :=
  match a with
  | Fetch force now => snd (fetchData force now s)
  | Refresh now => snd (refresh now s)
  | InvalidateCache => snd (invalidateCache s)
  end.

Definition perform_all (l : list action) (s : hook) : hook :=
  fold_left (fun s a => perform a s) l s.

(** The exposed [data] is the cached value whenever there is one. *)
Definition shows_cache (s : hook) : Prop :=
  cachedData s = None \/ data s = cachedData s.

End Hook.
End UseCachedData.

(* ===================================================================== *)
(** * Timeline view (the same code on both list pages) *)
(* ===================================================================== *)

Module Timeline.
Import Js.

Definition msPerDay : Z := 86400000.

(** The [order] array. *)
Definition order : list string :=
  [ "Today"; "Yesterday"; "Last 7 Days"; "Earlier" ]%string.

(** [{ groupName, items }] on the items page, [{ groupName, documents }]
    on the documents page. *)
Record group (R : Type) : Type := Group {
  groupName : string;
  records : list R
}.
Arguments Group {R} groupName records.
Arguments groupName {R} g.
Arguments records {R} g.

(** The time zone of the host, as [Date] uses it.  [localTime t] is the
    local time value of the instant [t] (the language's [LocalTime]):
    the instant plus the offset in force then.  [utc l] is the instant
    that the local time value [l] stands for (its [UTC]); where a clock
    change skips or repeats [l], that is [l] read with the offset in
    force before the change. *)
Record zone : Type := Zone {
  localTime : Z -> Z;
  utc : Z -> Z
}.

(** A zone without clock changes, [offset] milliseconds ahead of UTC. *)
Definition fixed (offset : Z) : zone :=
  Zone (fun t => t + offset) (fun l => l - offset).

Section Timeline.
(** [R] is the record type of the page and [created_at] the parsed value
    of its [created_at] field, a valid time value of the year 100 or
    later; [tz] is the host's time zone. *)
Context {R : Type} (created_at : R -> Z) (tz : zone).

(** The calendar day of an instant, counted from the epoch in local time. *)
Definition day_number (t : Z) : Z := localTime tz t / msPerDay.

(** [new Date(d.getFullYear(), d.getMonth(), d.getDate()).getTime()]:
    the instant of the local time value 00:00 of the day of [t]. *)
Definition startOfDay (t : Z) : Z := utc tz (day_number t * msPerDay).

(** [d.setDate(d.getDate() - n)]: the day of the month moves, the local
    time of day stays. *)
Definition setDate_minus (n : Z) (t : Z) : Z :=
  utc tz (localTime tz t - n * msPerDay).

(** [getTimelineGroup(dateString)], with [now] the value of [new Date()]. *)
Definition getTimelineGroup (now : Z) (date : Z) : string :=
  let today := startOfDay now in
  let yesterday := setDate_minus 1 today in
  let lastWeek := setDate_minus 7 today in
  let itemDate := startOfDay date in
  if itemDate =? today then "Today"
  else if itemDate =? yesterday then "Yesterday"
  else if itemDate >=? lastWeek then "Last 7 Days"
  else "Earlier".

(** [(a, b) => new Date(b.created_at) - new Date(a.created_at)] *)
Definition newest_first (a b : R) : Z := created_at b - created_at a.

(** [groups[key]?.length > 0], for the labels of [order]: none of them
    names an inherited property, so [groups[key]] is an own array or
    [undefined]. *)
Definition has_records (groups : object (list R)) (key : string) : bool :=
  match get groups key with
  | Own l => (0 <? length l)%nat
  | _ => false
  end.

(** [groups[key]] for a key that passed the filter. *)
Definition records_of (groups : object (list R)) (key : string) : list R :=
  match get groups key with
  | Own l => l
  | _ => []
  end.

(** The [timelineGroups] memo. *)
Definition timelineGroups (now : Z) (items : list R) : exc (list (group R)) :=
  if (length items =? 0)%nat then Ok []
  else
    groups ← group_by (fun item => getTimelineGroup now (created_at item)) items;
    let groups := map (fun e => (fst e, sort newest_first (snd e))) groups in
    Ok (map (fun key => Group key (records_of groups key))
            (List.filter (fun key => has_records groups key) order)).

(** The bucket of a record as the design document words it. *)
Definition bucket (now : Z) (date : Z) : string :=
  let today := day_number now in
  let itemDate := day_number date in
  if itemDate =? today then "Today"
  else if itemDate =? today - 1 then "Yesterday"
  else if itemDate >=? today - 7 then "Last 7 Days"
  else "Earlier".

(** Every calendar day has its 00:00, and a later day starts later.
    This holds where the clock never changes, and where it changes in
    the small hours as in most of Europe and North America; it fails
    where summer time begins at midnight. *)
Definition midnights_exist : Prop :=
  (forall d, localTime tz (utc tz (d * msPerDay)) = d * msPerDay)
  /\ (forall d d', d < d' -> utc tz (d * msPerDay) < utc tz (d' * msPerDay)).

(** The calendar never goes back: a later instant is not on an earlier
    day. *)
Definition days_advance : Prop :=
  forall a b, a <= b -> day_number a <= day_number b.

End Timeline.
End Timeline.

(* ===================================================================== *)
(** * The stored-items page *)
(* ===================================================================== *)

Module StoredItemsPage.
Import Js.

Record item : Type := Item {
  id : Z;
  item_name : string;
  location : string;
  category : option string;
  created_at : Z
}.

(** [{ categoryName, items }] *)
Record category_group : Type := CategoryGroup {
  categoryName : string;
  items : list item
}.

(** [diffMinutes = (now - created) / (1000 * 60)] *)
Definition diffMinutes (now created : Z) : Q :=
  (inject_Z (now - created) / inject_Z (1000 * 60))%Q.

(** [isRecentlyAdded(dateString)], with [now] the value of [new Date()]. *)
Definition isRecentlyAdded (now : Z) (created : Z) : bool :=
  Qle_bool (diffMinutes now created) (inject_Z 5).

Definition getTimelineGroup (tz : Timeline.zone) (now date : Z) : string :=
  Timeline.getTimelineGroup tz now date.

Definition timelineGroups (tz : Timeline.zone) (now : Z) (items : list item)
  : exc (list (Timeline.group item)) :=
  Timeline.timelineGroups created_at tz now items.

(** [item.category?.trim() || 'Uncategorized'] *)
Definition category_key (i : item) : string :=
  match category i with
  | None => "Uncategorized"
  | Some c => if String.eqb (trim c) "" then "Uncategorized" else trim c
  end.

Section Collation.
(** [a.localeCompare(b)], the collation of the host's default locale:
    negative, zero or positive. *)
Context (localeCompare : string -> string -> Z).

(** The [groupedItems] memo. *)
Definition groupedItems (items : list item) : exc (list category_group) :=
  if (length items =? 0)%nat then Ok []
  else
    categories ← group_by category_key items;
    Ok (map (fun e => CategoryGroup (fst e) (snd e))
            (sort (fun a b => localeCompare (fst a) (fst b))
                  (entries categories))).

End Collation.

(** ** The page's cells and handlers *)

(** [editForm] *)
Record edit_form : Type := EditForm {
  form_item_name : string;
  form_location : string;
  form_category : string
}.

(** The [useState] cells of the page, and a ghost log of the ids handed
    to [deleteItem]. *)
Record page : Type := Page {
  st_items : list item;
  st_loading : bool;
  st_error : string;
  st_deleteId : option Z;
  st_editingId : option Z;
  st_editForm : edit_form;
  st_deleting : bool;
  st_viewMode : string;
  st_deleted : list Z
}.

(** The page as it mounts. *)
Definition initial : page :=
  {| st_items := []; st_loading := true; st_error := ""; st_deleteId := None;
     st_editingId := None; st_editForm := EditForm "" "" "";
     st_deleting := false; st_viewMode := "category"; st_deleted := [] |}.

(** What [await deleteItem(id)] produces: [{success: true}],
    [{success: false, error}], or a rejection. *)
Inductive ack : Type :=
| Accepted
| Declined (error : option string)
| Thrown.

(** [result.error || fallback] *)
Definition or_default (error : option string) (fallback : string) : string :=
  match error with
  | Some e => if String.eqb e "" then fallback else e
  | None => fallback
  end.

(** [handleDelete(id)] for [id = target], with the outcome of the [await].  After a
    rejection nothing below the [await] runs. *)
Definition handleDelete (target : Z) (r : ack) (p : page) : page :=
  let deleted := st_deleted p ++ [target] in
  match r with
  | Thrown =>
      {| st_items := st_items p; st_loading := st_loading p;
         st_error := st_error p; st_deleteId := st_deleteId p;
         st_editingId := st_editingId p; st_editForm := st_editForm p;
         st_deleting := true; st_viewMode := st_viewMode p;
         st_deleted := deleted |}
  | Accepted =>
      {| st_items := List.filter (fun i => negb (id i =? target)) (st_items p);
         st_loading := st_loading p;
         st_error := st_error p; st_deleteId := None;
         st_editingId := st_editingId p; st_editForm := st_editForm p;
         st_deleting := false; st_viewMode := st_viewMode p;
         st_deleted := deleted |}
  | Declined error =>
      {| st_items := st_items p; st_loading := st_loading p;
         st_error := or_default error "Failed to delete item";
         st_deleteId := st_deleteId p;
         st_editingId := st_editingId p; st_editForm := st_editForm p;
         st_deleting := false; st_viewMode := st_viewMode p;
         st_deleted := deleted |}
  end.

(** [item.category || ''] *)
Definition category_or_empty (i : item) : string :=
  match category i with
  | Some c => c
  | None => ""
  end.

(** [handleEditClick(item)] *)
Definition handleEditClick (i : item) (p : page) : page :=
  {| st_items := st_items p; st_loading := st_loading p;
     st_error := st_error p; st_deleteId := st_deleteId p;
     st_editingId := Some (id i);
     st_editForm := EditForm (item_name i) (location i) (category_or_empty i);
     st_deleting := st_deleting p; st_viewMode := st_viewMode p;
     st_deleted := st_deleted p |}.

(** The effect that mirrors the hook's [data] into [items]: it runs with
    the current [cachedItems] and [cacheLoading].  Every array is truthy. *)
Definition mirror_cache (cachedItems : option (list item)) (cacheLoading : bool)
    (p : page) : page :=
  match cachedItems with
  | Some l =>
      {| st_items := l; st_loading := false;
         st_error := st_error p; st_deleteId := st_deleteId p;
         st_editingId := st_editingId p; st_editForm := st_editForm p;
         st_deleting := st_deleting p; st_viewMode := st_viewMode p;
         st_deleted := st_deleted p |}
  | None =>
      if negb cacheLoading then
        {| st_items := st_items p; st_loading := false;
           st_error := st_error p; st_deleteId := st_deleteId p;
           st_editingId := st_editingId p; st_editForm := st_editForm p;
           st_deleting := st_deleting p; st_viewMode := st_viewMode p;
           st_deleted := st_deleted p |}
      else p
  end.

End StoredItemsPage.

(* ===================================================================== *)
(** * The important-documents page *)
(* ===================================================================== *)

Module ImportantDocumentsPage.
Import Js.

Record document : Type := Document {
  id : Z;
  document_name : string;
  document_type : option string;
  notes : option string;
  created_at : Z
}.

(** [isRecentlyAdded(dateString)], with [now] the value of [Date.now()]. *)
Definition isRecentlyAdded (now : Z) (created : Z) : bool :=
  let addedTime := created in
  let fiveMinutes := 5 * 60 * 1000 in
  now - addedTime <? fiveMinutes.

(** [filterType === 'all' || doc.document_type === filterType] *)
Definition matchesType (filterType : string) (doc : document) : bool :=
  String.eqb filterType "all"
  || match document_type doc with
     | Some ty => String.eqb ty filterType
     | None => false
     end.

(** [!searchQuery || name.includes(query) || (doc.notes && notes.includes(query))],
    both sides in lower case. *)
Definition matchesSearch (searchQuery : string) (doc : document) : bool :=
  String.eqb searchQuery ""
  || includes (toLowerCase (document_name doc)) (toLowerCase searchQuery)
  || match notes doc with
     | Some n =>
         negb (String.eqb n "")
         && includes (toLowerCase n) (toLowerCase searchQuery)
     | None => false
     end.


(** [filteredDocuments] *)
Definition filteredDocuments (filterType searchQuery : string)
    (documents : list document) : list document :=
  List.filter (fun doc => matchesType filterType doc && matchesSearch searchQuery doc)
         documents.

(** [doc.document_type || 'other'] *)
Definition type_key (doc : document) : string :=
  match document_type doc with
  | None => "other"
  | Some ty => if String.eqb ty "" then "other" else ty
  end.

(** [groupedDocuments], and the groups as the page emits them:
    [Object.entries(groupedDocuments).map(([type, docs]) => ...)]. *)
Definition groupedDocuments (filtered : list document)
  : exc (object (list document)) :=
  group_by type_key filtered.

Definition typeGroups (filtered : list document)
  : exc (list (string * list document)) :=
  groups ← groupedDocuments filtered; Ok (entries groups).

Definition getTimelineGroup (tz : Timeline.zone) (now date : Z) : string :=
  Timeline.getTimelineGroup tz now date.

Definition timelineGroups (tz : Timeline.zone) (now : Z)
    (filtered : list document)
  : exc (list (Timeline.group document)) :=
  Timeline.timelineGroups created_at tz now filtered.

(** ** The debounced suggestion effect

    The cells the effect reads and writes, the pending [setTimeout] if
    any (its due time and the query its closure captured), the requests
    awaiting their response, and a ghost log of every query handed to
    [getDocumentSuggestions]. *)
Record search : Type := Search {
  searchQuery : string;
  suggestions : list document;
  showSuggestions : bool;
  loadingSuggestions : bool;
  debounceTimer : option (Z * string);
  inflight : list string;
  requested : list string
}.

(** What [await getDocumentSuggestions(q)] produces. *)
Inductive reply : Type :=
| Replied (success : bool) (data : list document)
| Failed.

Inductive event : Type :=
| Change (t : Z) (q : string)   (* [setSearchQuery(q)] at time [t] *)
| Elapse (t : Z)                (* the clock reaches [t] *)
| Respond (n : nat) (r : reply) (* the [n]-th pending request settles *)
| Focus                         (* [onFocus] of the input *)
| ClickOutside                  (* [mousedown] outside input and panel *)
| Select (t : Z) (doc : document). (* [handleSelectSuggestion(doc)] *)

Definition debounce : Z := 150.

(** The component right after it mounted at time [t]: the effect ran once
    for the empty query. *)
Definition mount (t : Z) : search :=
  {| searchQuery := ""; suggestions := []; showSuggestions := false;
     loadingSuggestions := false; debounceTimer := Some (t + debounce, ""%string);
     inflight := []; requested := [] |}.

(** [setSearchQuery(q)]: when the value changes the component renders
    again, the cleanup of the previous effect clears its timer and the
    effect arms a new one. *)
Definition setSearchQuery (t : Z) (q : string) (s : search) : search :=
  if String.eqb q (searchQuery s) then s
  else
    {| searchQuery := q; suggestions := suggestions s;
       showSuggestions := showSuggestions s;
       loadingSuggestions := loadingSuggestions s;
       debounceTimer := Some (t + debounce, q);
       inflight := inflight s; requested := requested s |}.

(** [fetchSuggestions] up to its [await], run by the timer with the
    query [q] of its closure. *)
Definition fetchSuggestions (q : string) (s : search) : search :=
  if (String.length q <? 2)%nat then
    {| searchQuery := searchQuery s; suggestions := [];
       showSuggestions := false;
       loadingSuggestions := loadingSuggestions s;
       debounceTimer := None;
       inflight := inflight s; requested := requested s |}
  else
    {| searchQuery := searchQuery s; suggestions := suggestions s;
       showSuggestions := showSuggestions s;
       loadingSuggestions := true;
       debounceTimer := None;
       inflight := inflight s ++ [q]; requested := requested s ++ [q] |}.

(** [fetchSuggestions] after its [await]. *)
Definition resume (n : nat) (r : reply) (s : search) : search :=
  match inflight s !! n with
  | None => s
  | Some _ =>
      let rest := take n (inflight s) ++ drop (S n) (inflight s) in
      match r with
      | Failed =>
          {| searchQuery := searchQuery s; suggestions := suggestions s;
             showSuggestions := showSuggestions s;
             loadingSuggestions := loadingSuggestions s;
             debounceTimer := debounceTimer s;
             inflight := rest; requested := requested s |}
      | Replied success data =>
          if success && (0 <? length data)%nat then
            {| searchQuery := searchQuery s; suggestions := data;
               showSuggestions := true;
               loadingSuggestions := false;
               debounceTimer := debounceTimer s;
               inflight := rest; requested := requested s |}
          else
            {| searchQuery := searchQuery s; suggestions := [];
               showSuggestions := false;
               loadingSuggestions := false;
               debounceTimer := debounceTimer s;
               inflight := rest; requested := requested s |}
      end
  end.

Definition setShowSuggestions (b : bool) (s : search) : search :=
  {| searchQuery := searchQuery s; suggestions := suggestions s;
     showSuggestions := b;
     loadingSuggestions := loadingSuggestions s;
     debounceTimer := debounceTimer s;
     inflight := inflight s; requested := requested s |}.

Definition setSuggestions (l : list document) (s : search) : search :=
  {| searchQuery := searchQuery s; suggestions := l;
     showSuggestions := showSuggestions s;
     loadingSuggestions := loadingSuggestions s;
     debounceTimer := debounceTimer s;
     inflight := inflight s; requested := requested s |}.

Definition step (e : event) (s : search) : search :=
  match e with
  | Change t q => setSearchQuery t q s
  | Elapse t =>
      match debounceTimer s with
      | Some (due, q) => if due <=? t then fetchSuggestions q s else s
      | None => s
      end
  | Respond n r => resume n r s
  | Focus =>
      if (0 <? length (suggestions s))%nat then setShowSuggestions true s else s
  | ClickOutside => setShowSuggestions false s
  | Select t doc =>
      setSuggestions [] (setShowSuggestions false
        (setSearchQuery t (document_name doc) s))
  end.

Definition run (trace : list event) (s : search) : search :=
  fold_left (fun s e => step e s) trace s.

(** The list is cleared and hidden. *)
Definition cleared_and_hidden (s : search) : Prop :=
  suggestions s = [] /\ showSuggestions s = false.

(** Every query handed to [getDocumentSuggestions] has two characters or
    more. *)
Definition long_queries_only (s : search) : Prop :=
  Forall (fun q => (2 <= String.length q)%nat) (requested s).

(** A burst of typing: the changes [(t, q)] in order, the clock being
    read right before each of them. *)
Definition typing (keys : list (Z * string)) : list event :=
  flat_map (fun k => [Elapse (fst k); Change (fst k) (snd k)]) keys.

(** After a change to [q] at time [t], every change of the burst comes
    less than [debounce] after the change before it, to another value. *)
Fixpoint rapid (t : Z) (q : string) (keys : list (Z * string)) : bool :=
  match keys with
  | [] => true
  | (t', q') :: keys' =>
      (t <=? t') && (t' <? t + debounce) && negb (String.eqb q' q)
      && rapid t' q' keys'
  end.

(** ** The name of a downloaded file ([handleDownload]) *)

(** [s.split(sep)] for a one-character separator: never empty. *)
Fixpoint split (sep : ascii) (s : string) : list string :=
  match s with
  | EmptyString => [EmptyString]
  | String c s' =>
      if Ascii.eqb c sep then EmptyString :: split sep s'
      else match split sep s' with
           | h :: t => String c h :: t
           | [] => [String c EmptyString]
           end
  end.

(** [doc.image_url.split('.').pop()?.split('?')[0] || 'jpg'] *)
Definition extension (image_url : string) : string :=
  let last_part := List.last (split "." image_url) EmptyString in
  let ext := List.hd EmptyString (split "?" last_part) in
  if String.eqb ext "" then "jpg"%string else ext.

(** The characters [/[a-z0-9]/i] matches. *)
Definition is_alnum (c : ascii) : bool :=
  (((97 <=? code c) && (code c <=? 122))
   || ((65 <=? code c) && (code c <=? 90))
   || ((48 <=? code c) && (code c <=? 57)))%nat.

(** [s.replace(/[^a-z0-9]/gi, '_')] *)
Fixpoint replace_non_alnum (s : string) : string :=
  match s with
  | EmptyString => EmptyString
  | String c s' =>
      String (if is_alnum c then c else "_"%char) (replace_non_alnum s')
  end.

(** [doc.document_name.replace(/[^a-z0-9]/gi, '_').substring(0, 50)] *)
Definition sanitizedName (document_name : string) : string :=
  String.substring 0 50 (replace_non_alnum document_name).

(** [`${sanitizedName}.${extension}`] *)
Definition download_name (document_name image_url : string) : string :=
  (sanitizedName document_name ++ "." ++ extension image_url)%string.

(** Every character of a string satisfies [p]. *)
Fixpoint all_chars (p : ascii -> bool) (s : string) : bool :=
  match s with
  | EmptyString => true
  | String c s' => p c && all_chars p s'
  end.

(** ** The form, the list and their handlers *)

(** A [File]: its MIME type and its size in bytes. *)
Record file : Type := File {
  file_type : string;
  file_size : Z
}.

(** The cells of the add/edit form. *)
Record form : Type := Form {
  documentName : string;
  documentType : option string;
  notes_field : string;
  imageFile : option file;
  imagePreview : option string;
  isDragging : bool;
  editingDoc : option document
}.

(** The banner cells: [loading], [success], [successMessage], [error]. *)
Record banner : Type := Banner {
  loading : bool;
  success : bool;
  successMessage : string;
  error : option string
}.

(** The list cells: [documents], [deleteId], [deleting], [activeMenu]. *)
Record listing : Type := Listing {
  documents : list document;
  deleteId : option Z;
  deleting : bool;
  activeMenu : option Z
}.

(** The object handed to [addDocument]. *)
Record addition : Type := Addition {
  add_document_name : string;
  add_document_type : option string;
  add_notes : string;
  add_image : option file
}.

(** The object handed to [updateDocument] with the id. *)
Record changes : Type := Changes {
  change_document_name : string;
  change_document_type : option string;
  change_notes : string
}.

(** The callbacks handed to [setTimeout] by the handlers below. *)
Inductive callback : Type :=
| HideSuccess   (* [() => setSuccess(false)] *)
| ClearError.   (* [() => setError('')] *)

(** Ghost record of what the handlers asked of the outside: the calls of
    [addDocument], [updateDocument], [deleteDocument] and [loadDocuments]
    and the [setTimeout]s (delay and callback). *)
Record requests : Type := Requests {
  added : list addition;
  updated : list (Z * changes);
  removed : list Z;
  reloads : nat;
  timeouts : list (Z * callback)
}.

Record page : Type := Page {
  the_form : form;
  the_banner : banner;
  the_listing : listing;
  the_requests : requests
}.

(** The page as it mounts. *)
Definition initial : page :=
  {| the_form := Form "" (Some ""%string) "" None None false None;
     the_banner := Banner false false "" (Some ""%string);
     the_listing := Listing [] None false None;
     the_requests := Requests [] [] [] 0%nat [] |}.

(** What the [await] of [addDocument] and [deleteDocument] produces:
    [{success: true}], [{success: false, error}], or a rejection. *)
Inductive ack : Type :=
| Accepted
| Declined (error : option string)
| Thrown.

(** What [await updateDocument(...)] produces: [{success: true, data}],
    [{success: false, error}], or a rejection. *)
Inductive update_ack : Type :=
| Saved (data : document)
| NotSaved (error : option string)
| UpdateThrown.

(** A value used as a condition: [undefined] and [''] are falsy. *)
Definition truthy_string (v : option string) : bool :=
  match v with
  | Some s => negb (String.eqb s "")
  | None => false
  end.

(** An id used as a condition: [null] and the number [0] are falsy. *)
Definition truthy_id (v : option Z) : bool :=
  match v with
  | Some i => negb (i =? 0)
  | None => false
  end.

Definition setError (e : option string) (b : banner) : banner :=
  {| loading := loading b; success := success b;
     successMessage := successMessage b; error := e |}.

Definition setLoading (l : bool) (b : banner) : banner :=
  {| loading := l; success := success b;
     successMessage := successMessage b; error := error b |}.

Definition setSuccess (v : bool) (b : banner) : banner :=
  {| loading := loading b; success := v;
     successMessage := successMessage b; error := error b |}.

Definition setSuccessMessage (m : string) (b : banner) : banner :=
  {| loading := loading b; success := success b;
     successMessage := m; error := error b |}.

Definition with_banner (f : banner -> banner) (p : page) : page :=
  {| the_form := the_form p; the_banner := f (the_banner p);
     the_listing := the_listing p; the_requests := the_requests p |}.

Definition with_form (f : form -> form) (p : page) : page :=
  {| the_form := f (the_form p); the_banner := the_banner p;
     the_listing := the_listing p; the_requests := the_requests p |}.

Definition with_listing (f : listing -> listing) (p : page) : page :=
  {| the_form := the_form p; the_banner := the_banner p;
     the_listing := f (the_listing p); the_requests := the_requests p |}.

Definition with_requests (f : requests -> requests) (p : page) : page :=
  {| the_form := the_form p; the_banner := the_banner p;
     the_listing := the_listing p; the_requests := f (the_requests p) |}.

(** [setTimeout(callback, delay)] *)
Definition setTimeout (c : callback) (delay : Z) (p : page) : page :=
  with_requests
    (fun q => {| added := added q; updated := updated q; removed := removed q;
                 reloads := reloads q;
                 timeouts := timeouts q ++ [(delay, c)] |}) p.

(** [resetForm()] *)
Definition resetForm (p : page) : page :=
  with_banner (setError (Some ""%string))
    (with_form
       (fun f => {| documentName := ""; documentType := Some ""%string;
                    notes_field := ""; imageFile := None; imagePreview := None;
                    isDragging := isDragging f; editingDoc := None |}) p).

(** [loadDocuments()]: started, not awaited. *)
Definition loadDocuments (p : page) : page :=
  with_requests
    (fun q => {| added := added q; updated := updated q; removed := removed q;
                 reloads := S (reloads q); timeouts := timeouts q |}) p.

Section Browser.
(** [URL.createObjectURL], the browser's. *)
Context (createObjectURL : file -> string).

Definition tenMegabytes : Z := 10 * 1024 * 1024.

(** [setImageFile(file); setImagePreview(URL.createObjectURL(file)); setError('')] *)
Definition accept_image (fl : file) (p : page) : page :=
  with_banner (setError (Some ""%string))
    (with_form
       (fun f => {| documentName := documentName f;
                    documentType := documentType f;
                    notes_field := notes_field f; imageFile := Some fl;
                    imagePreview := Some (createObjectURL fl);
                    isDragging := isDragging f; editingDoc := editingDoc f |}) p).

(** [handleImageChange(e)], with [files = e.target.files]. *)
Definition handleImageChange (files : list file) (p : page) : page :=
  match files with
  | [] => p
  | fl :: _ =>
      if negb (startsWith (file_type fl) "image/") then
        with_banner (setError (Some "Please upload a valid image file"%string)) p
      else if file_size fl >? tenMegabytes then
        with_banner (setError (Some "Image size must be less than 10MB"%string)) p
      else accept_image fl p
  end.

Definition setIsDragging (b : bool) (p : page) : page :=
  with_form
    (fun f => {| documentName := documentName f; documentType := documentType f;
                 notes_field := notes_field f; imageFile := imageFile f;
                 imagePreview := imagePreview f;
                 isDragging := b; editingDoc := editingDoc f |}) p.

(** [handleDrop(e)], with [files = e.dataTransfer.files]. *)
Definition handleDrop (files : list file) (p : page) : page :=
  let p := setIsDragging false p in
  match files with
  | fl :: _ =>
      if startsWith (file_type fl) "image/" then
        if file_size fl >? tenMegabytes then
          with_banner (setError (Some "Image size must be less than 10MB"%string)) p
        else accept_image fl p
      else
        with_banner (setError (Some "Please drop a valid image file"%string)) p
  | [] =>
      with_banner (setError (Some "Please drop a valid image file"%string)) p
  end.

(** The [×] on the preview: [setImageFile(null); setImagePreview(null)]. *)
Definition removeImage (p : page) : page :=
  with_form
    (fun f => {| documentName := documentName f; documentType := documentType f;
                 notes_field := notes_field f; imageFile := None;
                 imagePreview := None;
                 isDragging := isDragging f; editingDoc := editingDoc f |}) p.

End Browser.

(** [doc.notes || ''] *)
Definition notes_or_empty (doc : document) : string :=
  match notes doc with
  | Some n => n
  | None => ""
  end.

(** [startEdit(doc)] *)
Definition startEdit (doc : document) (p : page) : page :=
  with_listing
    (fun l => {| documents := documents l; deleteId := deleteId l;
                 deleting := deleting l; activeMenu := None |})
    (with_form
       (fun f => {| documentName := document_name doc;
                    documentType := document_type doc;
                    notes_field := notes_or_empty doc;
                    imageFile := imageFile f; imagePreview := imagePreview f;
                    isDragging := isDragging f; editingDoc := Some doc |}) p).

(** [!documentName.trim() || !documentType] *)
Definition missing_required (f : form) : bool :=
  String.eqb (trim (documentName f)) "" || negb (truthy_string (documentType f)).

(** [result.error || fallback] *)
Definition or_default (error : option string) (fallback : string) : string :=
  match error with
  | Some e => if String.eqb e "" then fallback else e
  | None => fallback
  end.

(** [handleSubmit(e)], with the outcome of [await addDocument(...)].
    After a rejection nothing below the [await] runs. *)
Definition handleSubmit (r : ack) (p : page) : page :=
  if missing_required (the_form p) then
    with_banner (setError (Some "Document name and type are required"%string)) p
  else
    let f := the_form p in
    let request :=
      Addition (documentName f) (documentType f) (notes_field f) (imageFile f) in
    let p :=
      with_requests
        (fun q => {| added := added q ++ [request]; updated := updated q;
                     removed := removed q; reloads := reloads q;
                     timeouts := timeouts q |})
        (with_banner
           (fun b => setSuccess false (setError (Some ""%string) (setLoading true b)))
           p) in
    match r with
    | Thrown => p
    | Accepted =>
        with_banner (setLoading false)
          (setTimeout HideSuccess 3000
             (loadDocuments
                (resetForm
                   (with_banner
                      (fun b => setSuccess true (setSuccessMessage "" b)) p))))
    | Declined error =>
        with_banner (setLoading false)
          (with_banner
             (setError (Some (or_default error "Failed to add document"))) p)
    end.

(** [docs.map(d => d.id === editingDoc.id ? result.data : d)] *)
Definition replace_document (target : Z) (data : document)
    (docs : list document) : list document :=
  map (fun d => if id d =? target then data else d) docs.

Definition setDocuments (f : list document -> list document) (p : page) : page :=
  with_listing
    (fun l => {| documents := f (documents l); deleteId := deleteId l;
                 deleting := deleting l; activeMenu := activeMenu l |}) p.

(** [handleUpdate(e)], with the outcome of [await updateDocument(...)]. *)
Definition handleUpdate (r : update_ack) (p : page) : page :=
  match editingDoc (the_form p) with
  | None => p
  | Some editing =>
      let f := the_form p in
      let request :=
        Changes (documentName f) (documentType f) (notes_field f) in
      let p :=
        with_requests
          (fun q => {| added := added q;
                       updated := updated q ++ [(id editing, request)];
                       removed := removed q; reloads := reloads q;
                       timeouts := timeouts q |})
          (with_banner
             (fun b => setError (Some ""%string) (setLoading true b)) p) in
      match r with
      | UpdateThrown => p
      | Saved data =>
          with_banner (setLoading false)
            (setTimeout HideSuccess 3000
               (resetForm
                  (with_banner
                     (fun b => setSuccess true (setSuccessMessage "" b))
                     (setDocuments (replace_document (id editing) data) p))))
      | NotSaved error =>
          with_banner (setLoading false) (with_banner (setError error) p)
      end
  end.

(** [docs.filter(d => d.id !== deleteId)] *)
Definition without_document (target : Z) (docs : list document)
  : list document :=
  List.filter (fun d => negb (id d =? target)) docs.

(** [handleDelete()], with the outcome of [await deleteDocument(deleteId)]. *)
Definition handleDelete (r : ack) (p : page) : page :=
  match deleteId (the_listing p) with
  | Some target =>
      if negb (truthy_id (Some target)) then p
      else
        let p :=
          with_requests
            (fun q => {| added := added q; updated := updated q;
                         removed := removed q ++ [target]; reloads := reloads q;
                         timeouts := timeouts q |})
            (with_listing
               (fun l => {| documents := documents l; deleteId := deleteId l;
                            deleting := true; activeMenu := activeMenu l |}) p) in
        match r with
        | Thrown => p
        | Accepted =>
            with_listing
              (fun l => {| documents := documents l; deleteId := None;
                           deleting := false; activeMenu := activeMenu l |})
              (setDocuments (without_document target) p)
        | Declined error =>
            with_listing
              (fun l => {| documents := documents l; deleteId := None;
                           deleting := false; activeMenu := activeMenu l |})
              (with_banner (setError error) p)
        end
  | None => p
  end.

(** ** The page driven by its user *)

Definition setDeleteId (v : option Z) (p : page) : page :=
  with_listing
    (fun l => {| documents := documents l; deleteId := v;
                 deleting := deleting l; activeMenu := activeMenu l |}) p.

Definition setDocumentName (v : string) (p : page) : page :=
  with_form
    (fun f => {| documentName := v; documentType := documentType f;
                 notes_field := notes_field f; imageFile := imageFile f;
                 imagePreview := imagePreview f;
                 isDragging := isDragging f; editingDoc := editingDoc f |}) p.

Definition setDocumentType (v : string) (p : page) : page :=
  with_form
    (fun f => {| documentName := documentName f; documentType := Some v;
                 notes_field := notes_field f; imageFile := imageFile f;
                 imagePreview := imagePreview f;
                 isDragging := isDragging f; editingDoc := editingDoc f |}) p.

Definition setNotes (v : string) (p : page) : page :=
  with_form
    (fun f => {| documentName := documentName f; documentType := documentType f;
                 notes_field := v; imageFile := imageFile f;
                 imagePreview := imagePreview f;
                 isDragging := isDragging f; editingDoc := editingDoc f |}) p.

(** What the user and the services can do to the form and the list.  A
    handler that awaits a service is taken together with the outcome of
    its [await]: the next action comes after the handler has finished. *)
Inductive action : Type :=
| TypeName (v : string)                 (* [onChange] of the name input *)
| ChooseType (v : string)               (* [onChange] of the type select *)
| TypeNotes (v : string)                (* [onChange] of the notes area *)
| ChooseImage (files : list file)       (* [handleImageChange] *)
| DragOver                              (* [onDragOver] *)
| DragLeave                             (* [onDragLeave] *)
| Drop (files : list file)              (* [handleDrop] *)
| RemoveImage                           (* the [×] on the preview *)
| Cancel                                (* the button wired to [resetForm] *)
| DismissError                          (* the [×] on the error banner *)
| StartEdit (doc : document)            (* [startEdit(doc)] *)
| SubmitForm (r : ack) (u : update_ack) (* [onSubmit] of the form *)
| AskDelete (target : Z)                (* [setDeleteId(doc.id)] *)
| CancelDelete                          (* [setDeleteId(null)] *)
| ConfirmDelete (r : ack)               (* [handleDelete] *)
| CacheDelivers (docs : list document). (* the effect on [cachedDocs] *)

Section Actions.
Context (createObjectURL : file -> string).

(** [onSubmit={editingDoc ? handleUpdate : handleSubmit}] and the other
    wirings of the page. *)
Definition handle (a : action) (p : page) : page :=
  match a with
  | TypeName v => setDocumentName v p
  | ChooseType v => setDocumentType v p
  | TypeNotes v => setNotes v p
  | ChooseImage files => handleImageChange createObjectURL files p
  | DragOver => setIsDragging true p
  | DragLeave => setIsDragging false p
  | Drop files => handleDrop createObjectURL files p
  | RemoveImage => removeImage p
  | Cancel => resetForm p
  | DismissError => with_banner (setError (Some ""%string)) p
  | StartEdit doc => startEdit doc p
  | SubmitForm r u =>
      match editingDoc (the_form p) with
      | Some _ => handleUpdate u p
      | None => handleSubmit r p
      end
  | AskDelete target => setDeleteId (Some target) p
  | CancelDelete => setDeleteId None p
  | ConfirmDelete r => handleDelete r p
  | CacheDelivers docs => setDocuments (fun _ => docs) p
  end.

Definition drive (trace : list action) (p : page) : page :=
  fold_left (fun p a => handle a p) trace p.

(** A file the form may carry: an image of at most ten megabytes. *)
Definition acceptable (fl : file) : Prop :=
  startsWith (file_type fl) "image/" = true /\ file_size fl <= tenMegabytes.

(** What the form carries is an acceptable image with the preview the
    browser made for it, or no image and no preview; and every image
    handed to [addDocument] so far was acceptable. *)
Definition image_checked (p : page) : Prop :=
  match imageFile (the_form p) with
  | Some fl =>
      acceptable fl /\ imagePreview (the_form p) = Some (createObjectURL fl)
  | None => imagePreview (the_form p) = None
  end
  /\ Forall (fun a => match add_image a with
                      | Some fl => acceptable fl
                      | None => True
                      end) (added (the_requests p)).

End Actions.

End ImportantDocumentsPage.

(* ===================================================================== *)
(** * The application shell ([App] and [Navbar]) *)
(* ===================================================================== *)

Module App.

(** What [AppContent] renders, by component name.  [user] tells whether
    [useAuth()] delivered a user, [loading] is its loading flag. *)
Definition when (b : bool) (component : string) : list string :=
  if b then [component] else [].

Definition AppContent (loading user : bool) (currentPage : string)
  : list string :=
  if loading then ["Loading"%string]
  else if negb user then
    when (String.eqb currentPage "signup") "SignUpPage"
    ++ when (negb (String.eqb currentPage "signup")) "SignInPage"
  else
    "Navbar"%string
    :: when (String.eqb currentPage "home") "HomePage"
    ++ when (String.eqb currentPage "add") "AddItemPage"
    ++ when (String.eqb currentPage "find") "FindItemPage"
    ++ when (String.eqb currentPage "stored") "StoredItemsPage"
    ++ when (String.eqb currentPage "documents") "ImportantDocumentsPage"
    ++ when (String.eqb currentPage "about") "AboutPage".

(** [useState('home')] *)
Definition initialPage : string := "home".

End App.

Module Navbar.

Record nav_item : Type := NavItem {
  nav_id : string;
  nav_label : string;
  nav_icon : string
}.

Definition publicNavItems : list nav_item :=
  [ NavItem "home" "Home" "🏠";
    NavItem "about" "About" "ℹ️" ].

Definition protectedNavItems : list nav_item :=
  [ NavItem "add" "Add Item" "➕";
    NavItem "stored" "Stored Items" "📦";
    NavItem "documents" "Documents" "📋";
    NavItem "find" "Find Item" "🔍";
    NavItem "about" "About" "ℹ️" ].

(** [user ? protectedNavItems : publicNavItems] *)
Definition navItems (user : bool) : list nav_item :=
  if user then protectedNavItems else publicNavItems.

(** The cells the bar reads and writes: its own [scrolled] and
    [mobileMenuOpen], and the [currentPage] it receives with its setter. *)
Record bar : Type := Bar {
  currentPage : string;
  scrolled : bool;
  mobileMenuOpen : bool
}.

(** [handleNavClick(itemId)] *)
Definition handleNavClick (itemId : string) (b : bar) : bar :=
  {| currentPage := itemId; scrolled := scrolled b; mobileMenuOpen := false |}.

(** [handleLogout()], after [await signOut()]. *)
Definition handleLogout (b : bar) : bar :=
  {| currentPage := "home"; scrolled := scrolled b; mobileMenuOpen := false |}.

(** [handleScroll()], with [scrollY = window.scrollY]. *)
Definition handleScroll (scrollY : Z) (b : bar) : bar :=
  {| currentPage := currentPage b; scrolled := scrollY >? 20;
     mobileMenuOpen := mobileMenuOpen b |}.

(** The menu button: [setMobileMenuOpen(!mobileMenuOpen)]. *)
Definition toggleMenu (b : bar) : bar :=
  {| currentPage := currentPage b; scrolled := scrolled b;
     mobileMenuOpen := negb (mobileMenuOpen b) |}.

(** What the user can do on the bar: click the [n]-th entry of the
    menu, click the logo, log out, toggle the menu, scroll. *)
Inductive click : Type :=
| ClickItem (n : nat)
| ClickLogo
| ClickLogout
| ClickMenuButton
| Scroll (scrollY : Z).

Definition on_click (user : bool) (c : click) (b : bar) : bar :=
  match c with
  | ClickItem n =>
      match nth_error (navItems user) n with
      | Some item => handleNavClick (nav_id item) b
      | None => b
      end
  | ClickLogo => handleNavClick "home" b
  | ClickLogout => handleLogout b
  | ClickMenuButton => toggleMenu b
  | Scroll scrollY => handleScroll scrollY b
  end.

End Navbar.

(* ===================================================================== *)
(** * The lazily loaded image ([LazyImage]) *)
(* ===================================================================== *)

Module LazyImage.

(** The prop [src], the three [useState] cells, and whether the
    [IntersectionObserver] of the current effect is still observing. *)
Record image : Type := Image {
  src : option string;
  isLoaded : bool;
  isInView : bool;
  hasError : bool;
  observing : bool
}.

(** [!src]: [null], [undefined] and [''] are falsy. *)
Definition no_src (v : option string) : bool :=
  match v with
  | Some s => String.eqb s ""
  | None => true
  end.

(** The wrapper [div] carrying [imgRef] is rendered. *)
Definition wrapper_rendered (i : image) : bool :=
  negb (no_src (src i) || hasError i).

(** The [img] element is rendered, so the browser may request [src]. *)
Definition img_rendered (i : image) : bool :=
  wrapper_rendered i && isInView i.

(** The effect on [src]: no observer without a [src]; otherwise a new
    observer that observes the wrapper if it is there. *)
Definition effect (i : image) : image :=
  {| src := src i; isLoaded := isLoaded i; isInView := isInView i;
     hasError := hasError i;
     observing := negb (no_src (src i)) && wrapper_rendered i |}.

(** The component mounts with [src]. *)
Definition mount (v : option string) : image :=
  effect {| src := v; isLoaded := false; isInView := false;
            hasError := false; observing := false |}.

Inductive event : Type :=
| Intersect (isIntersecting : bool)  (* the observer's callback *)
| Load                               (* [onLoad] of the [img] *)
| Error                              (* [onError] of the [img] *)
| NewSrc (v : option string).        (* the parent passes another [src] *)

Definition option_string_eqb (a b : option string) : bool :=
  match a, b with
  | Some x, Some y => String.eqb x y
  | None, None => true
  | _, _ => false
  end.

Definition step (e : event) (i : image) : image :=
  match e with
  | Intersect isIntersecting =>
      if observing i && isIntersecting then
        {| src := src i; isLoaded := isLoaded i; isInView := true;
           hasError := hasError i; observing := false |}
      else i
  | Load =>
      if img_rendered i then
        {| src := src i; isLoaded := true; isInView := isInView i;
           hasError := hasError i; observing := observing i |}
      else i
  | Error =>
      if img_rendered i then
        {| src := src i; isLoaded := isLoaded i; isInView := isInView i;
           hasError := true; observing := observing i |}
      else i
  | NewSrc v =>
      if option_string_eqb v (src i) then i
      else effect {| src := v; isLoaded := isLoaded i; isInView := isInView i;
                     hasError := hasError i; observing := false |}
  end.

Definition run (trace : list event) (i : image) : image :=
  fold_left (fun i e => step e i) trace i.

End LazyImage.

(* ===================================================================== *)
(** * Sample data for the worked examples *)
(* ===================================================================== *)

Module Samples.
Import Js.

(** The payload of the examples is an array of numbers; every array is
    truthy. *)
Definition array_truthy : list nat -> bool := fun _ => true.

(** An operation that is offline on every invocation. *)
Definition offline : nat -> UseCachedData.outcome (T:=list nat) :=
  fun _ => UseCachedData.Rejected (Error "offline").

(** An operation that resolves with [{success: false}], without an
    [error], on every invocation. *)
Definition declining : nat -> UseCachedData.outcome (T:=list nat) :=
  fun _ => UseCachedData.Resolved (UseCachedData.Result false None None).

(** An operation whose promise rejects with [null] on every invocation:
    [() => Promise.reject(null)]. *)
Definition rejecting_null : nat -> UseCachedData.outcome (T:=list nat) :=
  fun _ => UseCachedData.Rejected Nullish.

(** An operation that delivers one record on every invocation. *)
Definition online : nat -> UseCachedData.outcome (T:=list nat) :=
  fun _ => UseCachedData.Resolved
             (UseCachedData.Result true (Some [42%nat]) None).

(** A hook that fetched [[42]] at time 1000. *)
Definition fetched : UseCachedData.hook (T:=list nat) :=
  {| UseCachedData.data := Some [42%nat];
     UseCachedData.loading := false;
     UseCachedData.error := None;
     UseCachedData.lastFetchTime := 1000;
     UseCachedData.cachedData := Some [42%nat];
     UseCachedData.calls := 1%nat |}.

(** A document the service suggests for the query ["pa"]. *)
Definition passport : ImportantDocumentsPage.document :=
  ImportantDocumentsPage.Document 1 "Passport" (Some "passport"%string) None 0.

Definition id_card : ImportantDocumentsPage.document :=
  ImportantDocumentsPage.Document 2 "Identity card" (Some "id"%string) None 0.

Definition untyped : ImportantDocumentsPage.document :=
  ImportantDocumentsPage.Document 3 "Receipt" (Some " "%string) None 0.

Definition car_keys : ImportantDocumentsPage.document :=
  ImportantDocumentsPage.Document 4 "Car Keys" None (Some "spare"%string) 0.

Definition hammer : StoredItemsPage.item :=
  StoredItemsPage.Item 1 "Hammer" "Shed" (Some "Tools"%string) 0.

Definition pliers : StoredItemsPage.item :=
  StoredItemsPage.Item 2 "Pliers" "Shed" (Some " tools "%string) 0.

Definition charger : StoredItemsPage.item :=
  StoredItemsPage.Item 3 "Charger" "Desk" (Some "  "%string) 0.

Definition saw : StoredItemsPage.item :=
  StoredItemsPage.Item 4 "Saw" "Shed" (Some "Tools"%string) 0.

Definition hour : Z := 3600000.

(** New York in 2026: five hours behind UTC, four while summer time
    lasts, from 8 March 07:00 UTC to 1 November 06:00 UTC.  The local
    hour from 02:00 that the change in March skips and the local hour
    from 01:00 that the change in November repeats are read with the
    offset before the change. *)
Definition new_york : Timeline.zone :=
  {| Timeline.localTime := fun t =>
       if (1772953200000 <=? t) && (t <? 1793512800000)
       then t - 4 * hour else t - 5 * hour;
     Timeline.utc := fun l =>
       if l <? 1772953200000 - 4 * hour then l + 5 * hour
       else if l <? 1793512800000 - 4 * hour then l + 4 * hour
       else l + 5 * hour |}.

(** Havana in 2026: five hours behind UTC, four while summer time lasts.
    Summer time begins on Sunday 8 March at 00:00 local time
    (05:00 UTC), when the clocks go to 01:00, and ends on 1 November at
    01:00 local time (05:00 UTC).  The hour from 00:00 that 8 March
    skips is read with the offset before the change. *)
Definition havana : Timeline.zone :=
  {| Timeline.localTime := fun t =>
       if (1772946000000 <=? t) && (t <? 1793509200000)
       then t - 4 * hour else t - 5 * hour;
     Timeline.utc := fun l =>
       if l <? 1772946000000 - 4 * hour then l + 5 * hour
       else if l <? 1793509200000 - 4 * hour then l + 4 * hour
       else l + 5 * hour |}.

(** New York, 1 November 2026, the day the clocks go back: half past
    midnight, half past eleven in the evening, and half past one in the
    night that follows. *)
Definition november_morning : Z := 1793507400000.

Definition november_night : Z := 1793593800000.

Definition november_after : Z := 1793601000000.

(** A kettle stored that morning and a torch stored an hour before it,
    on 31 October. *)
Definition kettle : StoredItemsPage.item :=
  StoredItemsPage.Item 7 "Kettle" "Kitchen" (Some "Kitchen"%string)
    november_morning.

Definition torch : StoredItemsPage.item :=
  StoredItemsPage.Item 8 "Torch" "Hall" None (november_morning - hour).

(** Noon in Havana on 8 March 2026, and noon the day before. *)
Definition havana_noon : Z := 1772985600000.

Definition havana_noon_before : Z := 1772902800000.

(** A receipt whose name is [CAFÉ receipt], É being U+00C9, the query
    [café], é being U+00E9, and a name that is one no-break space. *)
Definition cafe_receipt : ImportantDocumentsPage.document :=
  ImportantDocumentsPage.Document 9
    ("CAF" ++ String (ascii_of_nat 201) " receipt") None None 0.

Definition cafe_query : string := "caf" ++ String (ascii_of_nat 233) "".

Definition no_break_space : string := String (ascii_of_nat 160) "".

(** A photo of 2 MB and the object URL the examples give it. *)
Definition photo : ImportantDocumentsPage.file :=
  ImportantDocumentsPage.File "image/png" 2097152.

Definition object_url (fl : ImportantDocumentsPage.file) : string :=
  ("blob:" ++ ImportantDocumentsPage.file_type fl)%string.

(** The documents page with a filled form, with three documents listed,
    while the passport is edited, and while the delete dialog asks about
    the identity card. *)
Definition filled : ImportantDocumentsPage.page :=
  ImportantDocumentsPage.drive object_url
    [ ImportantDocumentsPage.TypeName " Passport ";
      ImportantDocumentsPage.ChooseType "passport";
      ImportantDocumentsPage.ChooseImage [photo] ]
    ImportantDocumentsPage.initial.

Definition listed : ImportantDocumentsPage.page :=
  ImportantDocumentsPage.drive object_url
    [ ImportantDocumentsPage.CacheDelivers [passport; id_card; car_keys] ]
    ImportantDocumentsPage.initial.

Definition editing : ImportantDocumentsPage.page :=
  ImportantDocumentsPage.drive object_url
    [ ImportantDocumentsPage.StartEdit passport;
      ImportantDocumentsPage.TypeName "Passport 2030" ]
    listed.

Definition renewed : ImportantDocumentsPage.document :=
  ImportantDocumentsPage.Document 1 "Passport 2030" (Some "passport"%string)
    None 0.

Definition confirming : ImportantDocumentsPage.page :=
  ImportantDocumentsPage.drive object_url
    [ ImportantDocumentsPage.AskDelete 2 ] listed.

(** A collation in the manner of the default locale on Latin letters:
    case is ignored first; on a tie the lower-case spelling comes first. *)
Definition sign (c : comparison) : Z :=
  match c with
  | Lt => -1
  | Eq => 0
  | Gt => 1
  end.

Definition collate (a b : string) : Z :=
  match String.compare (toLowerCase a) (toLowerCase b) with
  | Eq => sign (String.compare b a)
  | c => sign c
  end.

End Samples.

(* ===================================================================== *)
(** * Properties of the cache store *)
(* ===================================================================== *)

Section DataCacheFacts.
Context {K : Type} `{Countable K} {V : Type}.
Import DataCache.
Implicit Types (c : DataCache.t K V) (key : K).

Lemma aligned_new : aligned (new (K:=K) (V:=V)).
Proof. unfold aligned, new; simpl. by rewrite !dom_empty_L. Qed.

Lemma aligned_exec now (o : op) c : aligned c -> aligned (exec now o c).
Proof.
  unfold aligned. intros Hc. destruct o as [key data ttl|key|key|]; simpl.
  - by rewrite !dom_insert_L, Hc.
  - unfold get. destruct (expired now (timestamps c !! key)); simpl.
    + by rewrite !dom_delete_L, Hc.
    + exact Hc.
  - by rewrite !dom_delete_L, Hc.
  - by rewrite !dom_empty_L.
Qed.

Lemma aligned_run (h : list (Z * op)) : forall c, aligned c -> aligned (run h c).
Proof.
  induction h as [|e h IH]; intros c Hc; simpl; [exact Hc|].
  apply IH, aligned_exec, Hc.
Qed.

Lemma set_records_expiry now key (data : option V) ttl c :
  timestamps (set now key data ttl c) !! key = Some (now + ttl)
  /\ cache (set now key data ttl c) !! key = Some data.
Proof. unfold set; simpl. by rewrite !lookup_insert_eq. Qed.

Lemma expired_spec now e :
  expired now (Some e) = true <-> e = 0 \/ e < now.
Proof.
  unfold expired. rewrite orb_true_iff, Z.eqb_eq, Z.gtb_ltb, Z.ltb_lt. tauto.
Qed.

Lemma get_of_expired now key c :
  expired now (timestamps c !! key) = true -> absent_after_get now key c.
Proof.
  intros He. unfold absent_after_get, get. rewrite He. simpl.
  rewrite !lookup_delete_eq. repeat split.
Qed.

Lemma get_of_live now key c e :
  timestamps c !! key = Some e -> e <> 0 -> now <= e ->
  get now key c = (c, Map_get (cache c) key).
Proof.
  intros Ht Hz Hle. unfold get. rewrite Ht.
  destruct (expired now (Some e)) eqn:He; [|reflexivity].
  apply expired_spec in He. lia.
Qed.

(** A read no later than the expiry finds the value just stored. *)
Lemma get_after_set_live c key (data : option V) ttl now now' :
  now + ttl <> 0 -> now' <= now + ttl ->
  snd (get now' key (set now key data ttl c)) = data.
Proof.
  intros Hz Hle.
  destruct (set_records_expiry now key data ttl c) as [Ht Hc].
  rewrite (get_of_live now' key _ (now + ttl) Ht Hz Hle).
  cbn [snd]. unfold Map_get. now rewrite Hc.
Qed.

(** C10.  After any history of [set], [get], [invalidate] and [clear]
    calls on a fresh [DataCache], the value map and the expiry map have
    exactly the same keys. *)
Theorem cache_and_timestamps_share_keys (h : list (Z * op (K:=K) (V:=V))) :
  dom (cache (run h new)) = dom (timestamps (run h new)).
Proof. apply (aligned_run h), aligned_new. Qed.

(** C3, as the code has it.  Once the clock is strictly past the expiry
    [now + ttl] recorded by [set] (for [ttl = 0]: at any time after the
    millisecond of the [set]), [get] returns absent, removes the entry
    from both maps, and later reads stay absent. *)
Theorem get_past_expiry_evicts c key (data : option V) ttl now now' :
  now + ttl < now' ->
  absent_after_get now' key (set now key data ttl c).
Proof.
  intros Hlt. apply get_of_expired.
  destruct (set_records_expiry now key data ttl c) as [-> _].
  apply expired_spec. lia.
Qed.

End DataCacheFacts.

(** A read in the very millisecond of a [set] with [ttl = 0] still finds
    the value: the entry is live up to and including its expiry. *)
Lemma get_at_expiry_returns_value :
  snd (DataCache.get 1000 "k"%string
         (DataCache.set 1000 "k"%string (Some 7%nat) 0 DataCache.new))
  = Some 7%nat.
Proof. vm_compute. reflexivity. Qed.

Lemma get_past_expiry_evicts_witness :
  DataCache.absent_after_get 1001 "k"%string
    (DataCache.set 1000 "k"%string (Some 7%nat) 0 DataCache.new).
Proof.
  apply (get_past_expiry_evicts DataCache.new "k"%string (Some 7%nat) 0
           1000 1001).
  lia.
Defined.

(* ===================================================================== *)
(** * Properties of the cached-fetch controller *)
(* ===================================================================== *)

Section UseCachedDataFacts.
Import Js UseCachedData.
Context {T : Type} (truthy : T -> bool).
Context (fetchFunction : nat -> outcome (T:=T)) (cacheTime : Z).

Abbreviation fetchData := (fetchData truthy fetchFunction cacheTime).
Abbreviation refresh := (refresh truthy fetchFunction cacheTime).
Abbreviation fresh := (fresh truthy cacheTime).
Abbreviation idempotent_pair := (idempotent_pair truthy fetchFunction cacheTime).
Abbreviation pair_calls := (pair_calls truthy fetchFunction cacheTime).
Abbreviation refresh_fetches_and_stamps :=
  (refresh_fetches_and_stamps truthy fetchFunction cacheTime).

(** A call that finds the cache fresh touches neither the operation nor
    the cache. *)
Lemma fetchData_fresh force now s :
  fresh force now s = true ->
  fetchData force now s =
    (Ok (cachedData s),
     {| data := cachedData s; loading := false; error := error s;
        lastFetchTime := lastFetchTime s; cachedData := cachedData s;
        calls := calls s |}).
Proof. intros Hf. unfold UseCachedData.fetchData. rewrite Hf. reflexivity. Qed.

(** A call that fetches and succeeds stores the payload and the entry
    time of the call. *)
Lemma fetchData_success force now s r :
  fresh force now s = false ->
  fetchFunction (calls s) = Resolved r -> success r = true ->
  fetchData force now s =
    (Ok (rdata r),
     {| data := rdata r; loading := false; error := None;
        lastFetchTime := now; cachedData := rdata r;
        calls := S (calls s) |}).
Proof.
  intros Hf Ho Hs. unfold UseCachedData.fetchData. rewrite Hf.
  unfold try_catch_finally, await_fetchFunction, mbind, M_bind; simpl.
  rewrite Ho; simpl. rewrite Hs; simpl. reflexivity.
Qed.

(** A call that fetches and fails with anything but [null] or
    [undefined] records what the [message] property of the failure holds,
    and nothing else. *)
Lemma fetchData_failure force now s message :
  fresh force now s = false ->
  failure (fetchFunction (calls s)) = Some (Value message) ->
  fetchData force now s =
    (Ok None,
     {| data := data s; loading := false; error := message;
        lastFetchTime := lastFetchTime s; cachedData := cachedData s;
        calls := S (calls s) |}).
Proof.
  intros Hf Hm. unfold UseCachedData.fetchData. rewrite Hf.
  unfold try_catch_finally, await_fetchFunction, mbind, M_bind; simpl.
  destruct (fetchFunction (calls s)) as [r|e]; simpl in *.
  - destruct (success r); [discriminate|]. simpl.
    injection Hm as <-. reflexivity.
  - injection Hm as ->. reflexivity.
Qed.

(** A call whose operation rejects with [null] or [undefined] throws a
    [TypeError] out of the [catch] block, after the [finally] block has
    run. *)
Lemma fetchData_escapes force now s :
  fresh force now s = false ->
  fetchFunction (calls s) = Rejected Nullish ->
  fetchData force now s =
    (Throw (Error "Cannot read properties of null (reading 'message')"),
     {| data := data s; loading := false; error := None;
        lastFetchTime := lastFetchTime s; cachedData := cachedData s;
        calls := S (calls s) |}).
Proof.
  intros Hf Ho. unfold UseCachedData.fetchData. rewrite Hf.
  unfold try_catch_finally, await_fetchFunction, mbind, M_bind; simpl.
  rewrite Ho. reflexivity.
Qed.

Lemma failure_or_success (o : outcome (T:=T)) :
  (exists r, o = Resolved r /\ success r = true /\ failure o = None)
  \/ (exists message, failure o = Some (Value message))
  \/ (o = Rejected Nullish /\ failure o = Some Nullish).
Proof.
  destruct o as [r|[|m]]; simpl.
  - destruct (success r) eqn:Hs; [left|right; left]; eauto.
  - right; right; auto.
  - right; left; eauto.
Qed.

(** The cells after a call that fetched: the counter went up by one, and
    the two refs changed only if the operation succeeded. *)
Lemma fetchData_fetches force now s :
  fresh force now s = false ->
  let s' := snd (fetchData force now s) in
  calls s' = S (calls s)
  /\ loading s' = false
  /\ match failure (fetchFunction (calls s)) with
     | None => lastFetchTime s' = now
     | Some _ => lastFetchTime s' = lastFetchTime s
                 /\ cachedData s' = cachedData s /\ data s' = data s
     end.
Proof.
  intros Hf.
  destruct (failure_or_success (fetchFunction (calls s)))
    as [(r & Ho & Hs & Hn)|[(m & Hm)|[Ho Hm]]].
  - rewrite (fetchData_success _ _ _ r) by assumption. rewrite Hn. simpl. auto.
  - rewrite (fetchData_failure _ _ _ m) by assumption. rewrite Hm. simpl. auto.
  - rewrite fetchData_escapes by assumption. rewrite Hm. simpl. auto.
Qed.

(** A call throws only when the operation rejects with [null] or
    [undefined]: every other path ends in a returned value. *)
Lemma fetchData_returns force now s :
  fetchFunction (calls s) <> Rejected Nullish ->
  exists v s', fetchData force now s = (Ok v, s').
Proof.
  intros Hn. destruct (fresh force now s) eqn:Hf.
  - rewrite fetchData_fresh by exact Hf. eauto.
  - destruct (failure_or_success (fetchFunction (calls s)))
      as [(r & Ho & Hs & _)|[(m & Hm)|[Ho _]]].
    + rewrite (fetchData_success _ _ _ r) by assumption. eauto.
    + rewrite (fetchData_failure _ _ _ m) by assumption. eauto.
    + contradiction.
Qed.

Lemma fresh_force now s : fresh true now s = false.
Proof. reflexivity. Qed.

(** After [invalidateCache()] the next call fetches, however recent the
    last fetch was. *)
Lemma invalidateCache_forces_fetch now s :
  calls (snd (fetchData false now (snd (invalidateCache s)))) = S (calls s).
Proof.
  set (s0 := snd (invalidateCache s)).
  assert (Hf : fresh false now s0 = false) by reflexivity.
  assert (Hc : calls s0 = calls s) by reflexivity.
  destruct (fetchData_fetches false now s0 Hf) as [Hcalls _].
  rewrite Hcalls. congruence.
Qed.

(** C1, as the code has it.  Calls do not overlap and nothing intervenes.
    Two [fetchData(false)] calls entered less than [cacheTime] apart
    issue at most one underlying call, provided the first is served from
    the cache or its fetch succeeds with truthy data.  They also return
    the same data when the first call fetched, or when the stored fetch
    time is still less than [cacheTime] old at the second call. *)
Theorem fetch_twice_within_cacheTime s now1 now2 :
  now2 - now1 < cacheTime ->
  fresh false now1 s = true
  \/ (exists r, fetchFunction (calls s) = Resolved r
                /\ success r = true /\ js_truthy truthy (rdata r) = true) ->
  (pair_calls s now1 now2 <= calls s + 1)%nat
  /\ (fresh false now1 s = false \/ now2 - lastFetchTime s < cacheTime ->
      idempotent_pair s now1 now2).
Proof.
  unfold UseCachedData.idempotent_pair, UseCachedData.pair_calls.
  intros Hnear Hfirst.
  destruct (fresh false now1 s) eqn:Hhit.
  - (* the first call is served from the cache *)
    rewrite (fetchData_fresh false now1 s Hhit).
    assert (Ht : js_truthy truthy (cachedData s) = true).
    { unfold UseCachedData.fresh in Hhit; simpl in Hhit.
      destruct (js_truthy truthy (cachedData s)); [reflexivity|discriminate]. }
    split.
    + set (s1 := {| data := cachedData s; loading := false; error := error s;
                    lastFetchTime := lastFetchTime s;
                    cachedData := cachedData s; calls := calls s |}).
      destruct (fresh false now2 s1) eqn:Hhit2.
      * rewrite fetchData_fresh by exact Hhit2. simpl. lia.
      * destruct (fetchData_fetches false now2 s1 Hhit2) as [Hcalls _].
        cbn [snd]. fold s1. rewrite Hcalls. simpl. lia.
    + intros [Hc|Hstill]; [discriminate|].
      rewrite fetchData_fresh.
      * simpl. split; [lia|reflexivity].
      * unfold UseCachedData.fresh; simpl. rewrite Ht; simpl.
        apply Z.ltb_lt, Hstill.
  - (* the first call fetches, and succeeds with truthy data *)
    destruct Hfirst as [Hc|(r & Ho & Hs & Ht)]; [discriminate|].
    rewrite (fetchData_success false now1 s r) by assumption. simpl.
    rewrite fetchData_fresh.
    + simpl. split; [lia|]. intros _. split; [lia|reflexivity].
    + unfold UseCachedData.fresh; simpl. rewrite Ht; simpl.
      apply Z.ltb_lt, Hnear.
Qed.

(** When the operation is invoked and resolves with [success] false,
    [fetchData] returns [null] without throwing and stores in [error]
    the result's [error], or ["Failed to fetch data"] when that is
    absent or empty; when the operation rejects with a value other than
    [null] and [undefined], it returns [null] and stores what the
    [message] property of that value holds.  Either way the cached value
    and its timestamp stay as they were. *)
Lemma failed_fetch_records_error_and_keeps_cache force now s :
  fresh force now s = false ->
  (forall r, fetchFunction (calls s) = Resolved r -> success r = false ->
     exists s',
       fetchData force now s = (Ok None, s')
       /\ (forall e, rerror r = Some e -> e <> ""%string -> error s' = Some e)
       /\ (rerror r = None \/ rerror r = Some ""%string ->
           error s' = Some "Failed to fetch data"%string)
       /\ cachedData s' = cachedData s
       /\ lastFetchTime s' = lastFetchTime s)
  /\ (forall message, fetchFunction (calls s) = Rejected (Value message) ->
       exists s',
         fetchData force now s = (Ok None, s')
         /\ error s' = message
         /\ cachedData s' = cachedData s
         /\ lastFetchTime s' = lastFetchTime s).
Proof.
  intros Hf. split.
  - intros r Ho Hs. eexists. split.
    + apply fetchData_failure; [exact Hf|]. rewrite Ho. simpl. rewrite Hs.
      reflexivity.
    + simpl. unfold error_or_default. repeat split.
      * intros e -> Hne. destruct (String.eqb_spec e ""); [contradiction|].
        reflexivity.
      * intros [->| ->]; reflexivity.
  - intros m Ho. eexists. split.
    + apply fetchData_failure; [exact Hf|]. rewrite Ho. reflexivity.
    + simpl. auto.
Qed.

(** C6, as the code has it.  Every [refresh()] invokes the operation
    exactly once, however fresh the cache is; the stored timestamp becomes
    the entry time of the call when the operation succeeds and is left
    unchanged when it fails. *)
Theorem refresh_always_fetches s now :
  let s' := snd (refresh now s) in
  calls s' = S (calls s)
  /\ lastFetchTime s' =
       match failure (fetchFunction (calls s)) with
       | None => now
       | Some _ => lastFetchTime s
       end.
Proof.
  unfold UseCachedData.refresh.
  destruct (fetchData_fetches true now s (fresh_force now s))
    as (Hcalls & _ & Hstamp).
  split; [exact Hcalls|].
  destruct (failure (fetchFunction (calls s))); [apply Hstamp|exact Hstamp].
Qed.

End UseCachedDataFacts.

(** A failed fetch is not cached: two calls one second apart, well within
    the cache time, invoke the operation twice. *)
Lemma failed_fetch_is_fetched_again :
  2000 - 1000 < 30000
  /\ UseCachedData.pair_calls Samples.array_truthy Samples.offline 30000
       UseCachedData.init 1000 2000 = 2%nat
  /\ ~ UseCachedData.idempotent_pair Samples.array_truthy Samples.offline 30000
        UseCachedData.init 1000 2000.
Proof.
  split; [lia|]. split; [reflexivity|]. vm_compute. intros [Hle _].
  apply Nat.leb_le in Hle. discriminate.
Qed.

(** A refresh whose fetch fails leaves the timestamp at its old value. *)
Lemma failed_refresh_keeps_timestamp :
  ~ UseCachedData.refresh_fetches_and_stamps Samples.array_truthy Samples.offline 30000
      UseCachedData.init 1000.
Proof. vm_compute. intros [_ Heq]. discriminate. Qed.

Lemma fetch_twice_within_cacheTime_witness :
  (UseCachedData.pair_calls Samples.array_truthy Samples.online 30000
     UseCachedData.init 1000 2000 <= 0 + 1)%nat
  /\ (UseCachedData.fresh Samples.array_truthy 30000 false 1000
        UseCachedData.init = false
      \/ 2000 - 0 < 30000 ->
      UseCachedData.idempotent_pair Samples.array_truthy Samples.online 30000
        UseCachedData.init 1000 2000).
Proof.
  apply (fetch_twice_within_cacheTime Samples.array_truthy Samples.online 30000
           UseCachedData.init 1000 2000).
  - lia.
  - right. eexists. split; [reflexivity|]. split; reflexivity.
Defined.

(** C2.  An operation whose promise rejects with [null]: the [catch]
    block reads [err.message] of [null], so [fetchData] throws a
    [TypeError] past its boundary and records no error; [loading] is
    reset and the cache is untouched. *)
Lemma rejection_with_null_escapes_fetchData :
  UseCachedData.fetchData Samples.array_truthy Samples.rejecting_null 30000
    false 50000 Samples.fetched
  = (Js.Throw (Js.Error "Cannot read properties of null (reading 'message')"),
     {| UseCachedData.data := Some [42%nat];
        UseCachedData.loading := false;
        UseCachedData.error := None;
        UseCachedData.lastFetchTime := 1000;
        UseCachedData.cachedData := Some [42%nat];
        UseCachedData.calls := 2%nat |}).
Proof. reflexivity. Qed.

(** An operation that is offline, and one that declines without saying
    why: the message lands in [error], the cache stays. *)
Example failed_fetch_samples :
  UseCachedData.fetchData Samples.array_truthy Samples.offline 30000
    false 50000 Samples.fetched
  = (Js.Ok None,
     {| UseCachedData.data := Some [42%nat];
        UseCachedData.loading := false;
        UseCachedData.error := Some "offline"%string;
        UseCachedData.lastFetchTime := 1000;
        UseCachedData.cachedData := Some [42%nat];
        UseCachedData.calls := 2%nat |})
  /\ UseCachedData.fetchData Samples.array_truthy Samples.declining 30000
       false 50000 Samples.fetched
     = (Js.Ok None,
        {| UseCachedData.data := Some [42%nat];
           UseCachedData.loading := false;
           UseCachedData.error := Some "Failed to fetch data"%string;
           UseCachedData.lastFetchTime := 1000;
           UseCachedData.cachedData := Some [42%nat];
           UseCachedData.calls := 2%nat |}).
Proof. split; reflexivity. Qed.

(* ===================================================================== *)
(** * Properties of the string functions *)
(* ===================================================================== *)

Section StringFacts.
Import Js.
Local Open Scope string_scope.



Lemma eqb_empty (s : string) : String.eqb s "" = true <-> s = "".
Proof. apply String.eqb_eq. Qed.

Lemma trimStart_spec s :
  exists pre, s = pre ++ trimStart s
              /\ all_space pre = true
              /\ starts_with_space (trimStart s) = false.
Proof.
  induction s as [|c s (pre & Hs & Hpre & Hst)]; simpl.
  - exists "". auto.
  - destruct (is_space c) eqn:Hc.
    + exists (String c pre). split; [rewrite Hs at 1; reflexivity|].
      split; [simpl; rewrite Hc; exact Hpre|exact Hst].
    + exists "". repeat split. simpl. exact Hc.
Qed.

Lemma trimEnd_spec s :
  exists post, s = trimEnd s ++ post
               /\ all_space post = true
               /\ ends_with_space (trimEnd s) = false
               /\ starts_with_space (trimEnd s)
                  = starts_with_space s && negb (all_space s).
Proof.
  induction s as [|c s (post & Hs & Hpost & Hend & Hst)]; simpl.
  - exists "". auto.
  - destruct (trimEnd s) as [|d t] eqn:Ht.
    + change (s = post) in Hs. subst post.
      destruct (is_space c) eqn:Hc.
      * exists (String c s). simpl. rewrite Hc, Hpost. auto.
      * exists s. simpl. rewrite Hc. auto.
    + exists post. split; [rewrite Hs at 1; reflexivity|].
      split; [exact Hpost|]. split; [exact Hend|]. simpl.
      destruct (is_space c); simpl; [|reflexivity].
      destruct (all_space s) eqn:Hall; [|reflexivity].
      exfalso. clear - Ht Hall. revert d t Ht.
      induction s as [|e s IH]; simpl in *; [discriminate|].
      apply andb_true_iff in Hall as [He Hall]. intros d t.
      destruct (trimEnd s) as [|d' t'] eqn:Hs'.
      * rewrite He. discriminate.
      * intros _. eapply IH; eauto.
Qed.

(** [trim] removes white space at both ends, and only that. *)
Lemma trim_spec s :
  exists pre post,
    s = pre ++ trim s ++ post
    /\ all_space pre = true /\ all_space post = true
    /\ starts_with_space (trim s) = false
    /\ ends_with_space (trim s) = false.
Proof.
  unfold trim.
  destruct (trimStart_spec s) as (pre & Hs & Hpre & Hst).
  destruct (trimEnd_spec (trimStart s)) as (post & Hs' & Hpost & Hend & Hst').
  exists pre, post. rewrite <- Hs'. repeat split; auto.
  rewrite Hst', Hst. reflexivity.
Qed.




Lemma append_cons c (a b : string) : String c a ++ b = String c (a ++ b).
Proof. reflexivity. Qed.

Lemma append_nil (b : string) : "" ++ b = b.
Proof. reflexivity. Qed.





(** ** Case *)


Lemma code_bounded c : (code c < 256)%nat.
Proof. apply nat_ascii_bounded. Qed.








End StringFacts.

(* ===================================================================== *)
(** * Recency flag and filtering *)
(* ===================================================================== *)

Lemma items_isRecentlyAdded_spec now created :
  StoredItemsPage.isRecentlyAdded now created = true
  <-> now - created <= 5 * 60 * 1000.
Proof.
  unfold StoredItemsPage.isRecentlyAdded, StoredItemsPage.diffMinutes.
  rewrite Qle_bool_iff. unfold Qle, Qdiv, Qmult, Qinv, inject_Z; simpl. lia.
Qed.

Lemma documents_isRecentlyAdded_spec now created :
  ImportantDocumentsPage.isRecentlyAdded now created = true
  <-> now - created < 5 * 60 * 1000.
Proof. unfold ImportantDocumentsPage.isRecentlyAdded. apply Z.ltb_lt. Qed.

(** The two pages side by side.  The items page flags a record exactly
    when [now - createdAt] is at most five minutes, the documents page
    exactly when it is less than five minutes; on both pages a record
    created four minutes ago is flagged and one created six minutes ago
    is not. *)
Lemma isRecentlyAdded_on_both_pages now created :
  (StoredItemsPage.isRecentlyAdded now created = true
   <-> now - created <= 5 * 60 * 1000)
  /\ (ImportantDocumentsPage.isRecentlyAdded now created = true
      <-> now - created < 5 * 60 * 1000)
  /\ StoredItemsPage.isRecentlyAdded now (now - 4 * 60 * 1000) = true
  /\ ImportantDocumentsPage.isRecentlyAdded now (now - 4 * 60 * 1000) = true
  /\ StoredItemsPage.isRecentlyAdded now (now - 6 * 60 * 1000) = false
  /\ ImportantDocumentsPage.isRecentlyAdded now (now - 6 * 60 * 1000) = false.
Proof.
  split; [apply items_isRecentlyAdded_spec|].
  split; [apply documents_isRecentlyAdded_spec|].
  split; [apply items_isRecentlyAdded_spec; lia|].
  split; [apply documents_isRecentlyAdded_spec; lia|].
  split; apply not_true_is_false; intros Hc.
  - apply items_isRecentlyAdded_spec in Hc. lia.
  - apply documents_isRecentlyAdded_spec in Hc. lia.
Qed.

(** C7.  A record created exactly five minutes ago, [now - createdAt =
    300000]: the items page flags it as recently added, as the design
    has it, and the documents page, whose comment also says "within last
    5 minutes", does not. *)
Lemma documents_page_five_minutes_not_recent :
  300000 - 0 <= 5 * 60 * 1000
  /\ ImportantDocumentsPage.isRecentlyAdded 300000 0 = false
  /\ StoredItemsPage.isRecentlyAdded 300000 0 = true.
Proof. split; [lia|]. split; reflexivity. Qed.

Section FilterFacts.
Import Js ImportantDocumentsPage.

Lemma matchesType_spec filterType doc :
  matchesType filterType doc = true
  <-> filterType = "all"%string \/ document_type doc = Some filterType.
Proof.
  unfold matchesType. rewrite orb_true_iff, String.eqb_eq.
  destruct (document_type doc) as [ty|].
  - rewrite String.eqb_eq. split; intros [H|H]; auto; right; congruence.
  - split; intros [H|H]; auto; discriminate.
Qed.





End FilterFacts.

(* ===================================================================== *)
(** * The debounced suggestion effect *)
(* ===================================================================== *)

Section SuggestionFacts.
Import ImportantDocumentsPage.

Lemma setSearchQuery_requested t q s :
  requested (setSearchQuery t q s) = requested s.
Proof. unfold setSearchQuery. destruct (String.eqb q (searchQuery s)); reflexivity. Qed.

Lemma fetchSuggestions_long q s :
  long_queries_only s -> long_queries_only (fetchSuggestions q s).
Proof.
  unfold long_queries_only, fetchSuggestions. intros Hs.
  destruct (String.length q <? 2)%nat eqn:Hq; simpl; [exact Hs|].
  apply Nat.ltb_ge in Hq. apply Forall_app. split; [exact Hs|].
  constructor; [exact Hq|constructor].
Qed.

Lemma resume_requested n r s : requested (resume n r s) = requested s.
Proof.
  unfold resume. destruct (inflight s !! n); [|reflexivity].
  destruct r as [success data|]; [|reflexivity].
  destruct (success && (0 <? length data)%nat); reflexivity.
Qed.

Lemma step_long e s : long_queries_only s -> long_queries_only (step e s).
Proof.
  intros Hs. destruct e as [t q|t|n r| | |t doc]; simpl.
  - unfold long_queries_only. rewrite setSearchQuery_requested. exact Hs.
  - destruct (debounceTimer s) as [[due q]|]; [|exact Hs].
    destruct (due <=? t); [|exact Hs]. apply fetchSuggestions_long, Hs.
  - unfold long_queries_only. rewrite resume_requested. exact Hs.
  - destruct (0 <? length (suggestions s))%nat; exact Hs.
  - exact Hs.
  - unfold long_queries_only. simpl. rewrite setSearchQuery_requested. exact Hs.
Qed.

Lemma run_long trace : forall s,
  long_queries_only s -> long_queries_only (run trace s).
Proof.
  induction trace as [|e trace IH]; intros s Hs; simpl; [exact Hs|].
  apply IH, step_long, Hs.
Qed.

Lemma mount_long t : long_queries_only (mount t).
Proof. constructor. Qed.

(** A change of the query to a new value only arms the timer. *)
Lemma setSearchQuery_arms t q s :
  q <> searchQuery s ->
  setSearchQuery t q s =
    {| searchQuery := q; suggestions := suggestions s;
       showSuggestions := showSuggestions s;
       loadingSuggestions := loadingSuggestions s;
       debounceTimer := Some (t + debounce, q);
       inflight := inflight s; requested := requested s |}.
Proof.
  intros Hne. unfold setSearchQuery.
  destruct (String.eqb q (searchQuery s)) eqn:E; [|reflexivity].
  apply String.eqb_eq in E. contradiction.
Qed.

(** C9, as the code has it.  In every state the page can reach, no query
    shorter than two characters has been sent to the suggestion service.
    A change to such a query leaves the list and its visibility as they
    were and arms the 150 ms timer; the list is cleared and hidden when
    that timer fires, and no fetch is issued then. *)
Theorem short_query_cleared_at_timer_never_fetched t0 trace :
  let s := run trace (mount t0) in
  Forall (fun q => (2 <= String.length q)%nat) (requested s)
  /\ forall t q,
       q <> searchQuery s -> (String.length q < 2)%nat ->
       let s1 := step (Change t q) s in
       suggestions s1 = suggestions s
       /\ showSuggestions s1 = showSuggestions s
       /\ debounceTimer s1 = Some (t + 150, q)
       /\ forall t', t + 150 <= t' ->
            cleared_and_hidden (step (Elapse t') s1)
            /\ requested (step (Elapse t') s1) = requested s.
Proof.
  intros s. split; [apply (run_long trace), mount_long|].
  intros t q Hne Hshort s1. subst s1. simpl.
  rewrite setSearchQuery_arms by exact Hne. simpl.
  repeat split; try reflexivity.
  all: intros; unfold debounce;
    destruct (t + 150 <=? t') eqn:Hdue; [|apply Z.leb_gt in Hdue; lia];
    unfold fetchSuggestions;
    apply Nat.ltb_lt in Hshort; rewrite Hshort; reflexivity.
Qed.

End SuggestionFacts.

(** The page shows a suggestion for ["pa"]; the user then deletes a
    character.  Right after that change the list is still there and
    still shown. *)
Lemma short_query_not_cleared_on_change :
  let s := ImportantDocumentsPage.run
             [ ImportantDocumentsPage.Change 10 "pa";
               ImportantDocumentsPage.Elapse 160;
               ImportantDocumentsPage.Respond 0
                 (ImportantDocumentsPage.Replied true [Samples.passport]);
               ImportantDocumentsPage.Change 300 "p" ]
             (ImportantDocumentsPage.mount 0) in
  ImportantDocumentsPage.searchQuery s = "p"%string
  /\ ~ ImportantDocumentsPage.cleared_and_hidden s.
Proof.
  vm_compute. split; [reflexivity|]. intros [Hs _]. discriminate.
Qed.

(* ===================================================================== *)
(** * Properties of the sort *)
(* ===================================================================== *)

Section SortFacts.
Import Js.
Context {A : Type} (cmp : A -> A -> Z).

Abbreviation precedes := (precedes cmp).

Lemma insert_perm x l : Permutation (insert cmp x l) (x :: l).
Proof.
  induction l as [|y l IH]; simpl; [reflexivity|].
  destruct (cmp x y <=? 0); [reflexivity|].
  rewrite IH. apply perm_swap.
Qed.

Lemma sort_perm l : Permutation (sort cmp l) l.
Proof.
  induction l as [|x l IH]; simpl; [reflexivity|].
  rewrite insert_perm. constructor. exact IH.
Qed.

Lemma sort_In x l : In x (sort cmp l) <-> In x l.
Proof.
  split; apply Permutation_in; [|symmetry]; apply sort_perm.
Qed.

(** Stability: elements that the comparator does not tell apart keep
    their original order. *)
Lemma insert_tied (p : A -> bool) x l :
  (forall a b, p a = true -> p b = true -> cmp a b <= 0) ->
  List.filter p (insert cmp x l) = List.filter p (x :: l).
Proof.
  intros Hp. induction l as [|y l IH]; [reflexivity|].
  cbn [insert]. destruct (cmp x y <=? 0) eqn:Hxy; [reflexivity|].
  apply Z.leb_gt in Hxy. cbn [List.filter] in *.
  destruct (p y) eqn:Hy.
  - destruct (p x) eqn:Hx.
    + specialize (Hp x y Hx Hy). lia.
    + now rewrite IH.
  - exact IH.
Qed.

Lemma sort_stable (p : A -> bool) l :
  (forall a b, p a = true -> p b = true -> cmp a b <= 0) ->
  List.filter p (sort cmp l) = List.filter p l.
Proof.
  intros Hp. induction l as [|x l IH]; [reflexivity|].
  cbn [sort fold_right]. rewrite (insert_tied p _ _ Hp).
  cbn [List.filter]. fold (sort cmp l). now rewrite IH.
Qed.

(** A consistent comparator: any two elements are comparable, and the
    order is transitive. *)
Hypothesis cmp_total : forall a b, precedes a b \/ precedes b a.
Hypothesis cmp_trans : forall a b c, precedes a b -> precedes b c -> precedes a c.

Lemma insert_sorted x l :
  StronglySorted precedes l -> StronglySorted precedes (insert cmp x l).
Proof.
  induction 1 as [|y l Hl IH Hy]; simpl.
  - repeat constructor.
  - destruct (cmp x y <=? 0) eqn:Hxy.
    + apply Z.leb_le in Hxy. constructor; [constructor; assumption|].
      constructor; [exact Hxy|].
      eapply List.Forall_impl; [|exact Hy].
      intros z Hz. eapply cmp_trans; eassumption.
    + apply Z.leb_gt in Hxy. constructor; [exact IH|].
      assert (Hyx : precedes y x).
      { destruct (cmp_total x y) as [H|H]; [unfold precedes in H; lia|exact H]. }
      eapply Permutation_Forall; [symmetry; apply insert_perm|].
      constructor; assumption.
Qed.

Lemma sort_sorted l : StronglySorted precedes (sort cmp l).
Proof.
  induction l as [|x l IH]; simpl; [constructor|].
  apply insert_sorted, IH.
Qed.

End SortFacts.

Lemma StronglySorted_impl {A : Type} (P Q : A -> A -> Prop) l :
  (forall a b, P a b -> Q a b) -> StronglySorted P l -> StronglySorted Q l.
Proof.
  intros HPQ. induction 1 as [|x l Hl IH Hx]; constructor; [exact IH|].
  eapply List.Forall_impl; [|exact Hx]. intros b. apply HPQ.
Qed.

(* ===================================================================== *)
(** * Properties of grouping into a plain object *)
(* ===================================================================== *)

Section ObjectFacts.
Import Js.
Context {A : Type} (key : A -> string).

Lemma In_existsb_eqb (k : string) ks :
  existsb (String.eqb k) ks = true <-> In k ks.
Proof.
  rewrite existsb_exists. split.
  - intros (k' & Hin & He). apply String.eqb_eq in He. congruence.
  - intros Hin. exists k. split; [exact Hin|apply String.eqb_refl].
Qed.

Lemma first_occurrences_In k ks : In k (first_occurrences ks) <-> In k ks.
Proof.
  induction ks as [|a ks IH]; simpl; [reflexivity|].
  rewrite List.filter_In, IH, negb_true_iff, String.eqb_neq.
  destruct (String.eqb_spec k a) as [->|Hne]; [tauto|].
  split; [tauto|]. intros [Heq|Hin]; [congruence|auto].
Qed.

Lemma first_occurrences_NoDup ks : NoDup (first_occurrences ks).
Proof.
  induction ks as [|a ks IH]; simpl; constructor.
  - rewrite list_elem_of_In, List.filter_In, negb_true_iff, String.eqb_neq. tauto.
  - apply NoDup_ListNoDup, List.NoDup_filter, NoDup_ListNoDup, IH.
Qed.

Lemma first_occurrences_snoc ks k :
  first_occurrences (ks ++ [k]) =
  if existsb (String.eqb k) ks then first_occurrences ks
  else first_occurrences ks ++ [k].
Proof.
  induction ks as [|a ks IH]; simpl; [reflexivity|].
  rewrite IH. destruct (String.eqb_spec k a) as [->|Hne]; simpl.
  - destruct (existsb (String.eqb a) ks); [reflexivity|].
    rewrite List.filter_app; simpl. rewrite String.eqb_refl; simpl.
    now rewrite app_nil_r.
  - destruct (existsb (String.eqb k) ks); [reflexivity|].
    rewrite List.filter_app; simpl.
    destruct (String.eqb_spec k a); [contradiction|reflexivity].
Qed.

(** Reading a property of an object built from a list of keys. *)
Lemma own_map {B : Type} (f : string -> B) ks k :
  own (map (fun k => (k, f k)) ks) k =
  if existsb (String.eqb k) ks then Some (f k) else None.
Proof.
  induction ks as [|a ks IH]; simpl; [reflexivity|].
  rewrite (String.eqb_sym k a).
  destruct (String.eqb_spec a k) as [->|Hne]; [reflexivity|exact IH].
Qed.

Lemma update_map {B : Type} (f : string -> B) ks k v :
  List.NoDup ks ->
  update (map (fun k => (k, f k)) ks) k v =
  map (fun k' => (k', if String.eqb k' k then v else f k')) ks.
Proof.
  induction 1 as [|a ks Ha Hnd IH]; simpl; [reflexivity|].
  destruct (String.eqb_spec a k) as [->|Hne].
  - f_equal. apply map_ext_in. intros k' Hin.
    destruct (String.eqb_spec k' k) as [->|]; [contradiction|reflexivity].
  - f_equal. exact IH.
Qed.

Lemma with_key_snoc k l x :
  with_key key k (l ++ [x]) =
  if String.eqb (key x) k then with_key key k l ++ [x] else with_key key k l.
Proof.
  unfold with_key. rewrite List.filter_app; simpl.
  destruct (String.eqb (key x) k); [reflexivity|apply app_nil_r].
Qed.

Lemma with_key_nil k l : ~ In k (map key l) -> with_key key k l = [].
Proof.
  intros Hk. unfold with_key. induction l as [|y l IH]; simpl; [reflexivity|].
  simpl in Hk. destruct (String.eqb_spec (key y) k) as [He|_]; [tauto|].
  apply IH. tauto.
Qed.

Lemma own_grouped l k :
  own (grouped key l) k =
  if existsb (String.eqb k) (map key l) then Some (with_key key k l) else None.
Proof.
  unfold grouped. rewrite own_map.
  replace (existsb (String.eqb k) (first_occurrences (map key l)))
    with (existsb (String.eqb k) (map key l)); [reflexivity|].
  apply eq_iff_eq_true. rewrite !In_existsb_eqb.
  symmetry. apply first_occurrences_In.
Qed.

(** One step of the [reduce]: pushing [x] onto the groups of [l] gives the
    groups of [l ++ [x]], unless the key names an inherited property. *)
Lemma push_to_grouped l x :
  is_prototype_key (key x) = false ->
  push_to (grouped key l) (key x) x = Ok (grouped key (l ++ [x])).
Proof.
  intros Hp. unfold push_to, get. rewrite own_grouped.
  unfold grouped at 3. rewrite map_app; simpl. rewrite first_occurrences_snoc.
  destruct (existsb (String.eqb (key x)) (map key l)) eqn:E.
  - f_equal. unfold grouped. rewrite update_map.
    + apply map_ext. intros k. rewrite with_key_snoc.
      rewrite (String.eqb_sym k (key x)).
      destruct (String.eqb_spec (key x) k) as [->|]; reflexivity.
    + apply NoDup_ListNoDup, first_occurrences_NoDup.
  - rewrite Hp. f_equal. unfold grouped. rewrite map_app; simpl.
    assert (Hk : ~ In (key x) (map key l)).
    { intros Hin. apply In_existsb_eqb in Hin. congruence. }
    rewrite with_key_snoc, String.eqb_refl, (with_key_nil _ _ Hk); simpl.
    f_equal. apply map_ext_in. intros k Hin. rewrite with_key_snoc.
    destruct (String.eqb_spec (key x) k) as [<-|]; [|reflexivity].
    rewrite first_occurrences_In in Hin. contradiction.
Qed.

(** The [reduce] as a whole. *)
Lemma group_by_grouped l :
  Forall (fun x => is_prototype_key (key x) = false) l ->
  group_by key l = Ok (grouped key l).
Proof.
  unfold group_by. induction l as [|x l IH] using rev_ind; intros Hl.
  - reflexivity.
  - apply Forall_app in Hl as [Hl Hx]. rewrite fold_left_app; simpl.
    rewrite (IH Hl). simpl. apply push_to_grouped.
    now inversion Hx.
Qed.

End ObjectFacts.

(* ===================================================================== *)
(** * Properties of the timeline view *)
(* ===================================================================== *)

Section TimelineFacts.
Import Js Timeline.
Context {R : Type} (created_at : R -> Z) (tz : zone).

Abbreviation label now := (fun r : R => getTimelineGroup tz now (created_at r)).
Abbreviation newest_first := (newest_first created_at).

Lemma getTimelineGroup_in_order now date :
  In (getTimelineGroup tz now date) order.
Proof.
  unfold getTimelineGroup, order.
  repeat match goal with |- context [if ?b then _ else _] => destruct b end;
    simpl; tauto.
Qed.

Lemma order_not_inherited k : In k order -> is_prototype_key k = false.
Proof.
  unfold order. simpl. intros [<-|[<-|[<-|[<-|[]]]]]; reflexivity.
Qed.

Lemma order_NoDup : List.NoDup order.
Proof.
  unfold order. repeat constructor; simpl; intuition discriminate.
Qed.

(** The view in closed form: for each label of [order] that some record
    carries, the records with that label, newest first. *)
Lemma timelineGroups_closed now items :
  timelineGroups created_at tz now items =
  Ok (map (fun k => Group k (sort newest_first (with_key (label now) k items)))
          (List.filter (fun k => (0 <? length (with_key (label now) k items))%nat)
                       order)).
Proof.
  unfold timelineGroups.
  destruct (length items =? 0)%nat eqn:Hlen.
  - apply Nat.eqb_eq in Hlen. destruct items; [reflexivity|discriminate].
  - rewrite group_by_grouped.
    2:{ apply Forall_forall. intros r _.
        apply order_not_inherited, getTimelineGroup_in_order. }
    unfold mbind, exc_bind. cbv zeta. f_equal.
    unfold grouped. rewrite map_map. cbn [fst snd].
    set (keys := first_occurrences (map (label now) items)).
    assert (Hget : forall k, In k order ->
      get (map (fun k => (k, sort newest_first (with_key (label now) k items))) keys) k
      = if existsb (String.eqb k) keys
        then Own (sort newest_first (with_key (label now) k items))
        else Undefined).
    { intros k Hk. unfold get. rewrite own_map.
      destruct (existsb (String.eqb k) keys); [reflexivity|].
      now rewrite (order_not_inherited k Hk). }
    assert (Hnil : forall k, existsb (String.eqb k) keys = false ->
                             with_key (label now) k items = []).
    { intros k Hk. apply with_key_nil. intros Hin.
      apply first_occurrences_In, In_existsb_eqb in Hin.
      unfold keys in Hk. congruence. }
    rewrite (List.filter_ext_in _
               (fun k => (0 <? length (with_key (label now) k items))%nat)).
    + apply map_ext_in. intros k Hk. apply List.filter_In in Hk as [Hk _].
      unfold records_of. rewrite (Hget k Hk).
      destruct (existsb (String.eqb k) keys) eqn:E; [reflexivity|].
      now rewrite (Hnil k E).
    + intros k Hk. unfold has_records. rewrite (Hget k Hk).
      destruct (existsb (String.eqb k) keys) eqn:E.
      * now rewrite (Permutation_length (sort_perm newest_first _)).
      * now rewrite (Hnil k E).
Qed.

Lemma newest_first_sorted l :
  StronglySorted (fun a b => created_at b <= created_at a)
                 (sort newest_first l).
Proof.
  apply (StronglySorted_impl (precedes newest_first)).
  - intros a b. unfold precedes, Timeline.newest_first. lia.
  - apply sort_sorted.
    + intros a b. unfold precedes, Timeline.newest_first. lia.
    + intros a b c. unfold precedes, Timeline.newest_first. lia.
Qed.

Lemma nonempty_filter_existsb {B : Type} (p : B -> bool) l :
  (0 <? length (List.filter p l))%nat = existsb p l.
Proof.
  induction l as [|x l IH]; simpl; [reflexivity|].
  destruct (p x); simpl; [reflexivity|exact IH].
Qed.

Section Midnights.
(** From here on every calendar day of the zone has its 00:00, and later
    days start later. *)
Hypothesis Hmid : midnights_exist tz.

Lemma midnight_eqb d d' :
  (utc tz (d * msPerDay) =? utc tz (d' * msPerDay)) = (d =? d').
Proof.
  destruct Hmid as [_ Hmono].
  destruct (Z.eqb_spec d d') as [->|Hne]; [apply Z.eqb_refl|].
  apply Z.eqb_neq. destruct (Z.lt_total d d') as [Hlt|[Heq|Hgt]].
  - specialize (Hmono d d' Hlt). lia.
  - contradiction.
  - specialize (Hmono d' d Hgt). lia.
Qed.

Lemma midnight_geb d d' :
  (utc tz (d * msPerDay) >=? utc tz (d' * msPerDay)) = (d >=? d').
Proof.
  destruct Hmid as [_ Hmono].
  destruct (Z.geb_spec d d') as [Hge|Hlt].
  - destruct (Z.geb_spec (utc tz (d * msPerDay)) (utc tz (d' * msPerDay)))
      as [_|Hlt]; [reflexivity|].
    destruct (Z.eq_dec d d') as [->|Hne]; [lia|].
    assert (Hgt : d' < d) by lia. specialize (Hmono d' d Hgt). lia.
  - specialize (Hmono d d' Hlt).
    destruct (Z.geb_spec (utc tz (d * msPerDay)) (utc tz (d' * msPerDay)));
      [lia|reflexivity].
Qed.

(** Comparing local midnights is comparing calendar days. *)
Lemma getTimelineGroup_bucket now date :
  getTimelineGroup tz now date = bucket tz now date.
Proof.
  unfold getTimelineGroup, bucket, startOfDay, setDate_minus.
  destruct Hmid as [Hex _]. rewrite !Hex.
  replace (day_number tz now * msPerDay - 1 * msPerDay)
    with ((day_number tz now - 1) * msPerDay) by lia.
  replace (day_number tz now * msPerDay - 7 * msPerDay)
    with ((day_number tz now - 7) * msPerDay) by lia.
  now rewrite !midnight_eqb, midnight_geb.
Qed.

Lemma with_key_label_bucket now k items :
  with_key (label now) k items =
  List.filter (fun r => String.eqb (bucket tz now (created_at r)) k) items.
Proof.
  unfold with_key. apply List.filter_ext. intros r.
  now rewrite getTimelineGroup_bucket.
Qed.

(** In a zone where every day has its 00:00, the timeline view is
    produced for every record list and every current time, and: its
    group names are the labels of the fixed order Today, Yesterday,
    Last 7 Days, Earlier that some record carries, in that order and
    without repetition; every record lies in the group of its
    calendar-day bucket; each group holds exactly the records of its
    bucket, newest first. *)
Lemma timelineGroups_spec now items :
  exists gs,
    timelineGroups created_at tz now items = Ok gs
    /\ map groupName gs =
         List.filter
           (fun k => existsb
                       (fun r => String.eqb (bucket tz now (created_at r)) k)
                       items)
           order
    /\ List.NoDup (map groupName gs)
    /\ (forall r, In r items ->
          exists g, In g gs
                    /\ groupName g = bucket tz now (created_at r)
                    /\ In r (records g))
    /\ forall g, In g gs ->
         Permutation (records g)
           (List.filter
              (fun r => String.eqb (bucket tz now (created_at r)) (groupName g))
              items)
         /\ StronglySorted (fun a b => created_at b <= created_at a) (records g).
Proof.
  eexists. split; [apply timelineGroups_closed|].
  assert (Hnames :
    map groupName
      (map (fun k => Group k (sort newest_first (with_key (label now) k items)))
           (List.filter
              (fun k => (0 <? length (with_key (label now) k items))%nat) order))
    = List.filter
        (fun k => existsb
                    (fun r => String.eqb (bucket tz now (created_at r)) k) items)
        order).
  { rewrite map_map. cbn [groupName]. rewrite map_id.
    apply List.filter_ext. intros k.
    now rewrite with_key_label_bucket, nonempty_filter_existsb. }
  split; [exact Hnames|]. split; [|split].
  - rewrite Hnames. apply List.NoDup_filter, order_NoDup.
  - intros r Hr. set (k := bucket tz now (created_at r)).
    exists (Group k (sort newest_first (with_key (label now) k items))).
    assert (Hin : In r (with_key (label now) k items)).
    { rewrite with_key_label_bucket. apply List.filter_In.
      split; [exact Hr|apply String.eqb_refl]. }
    split; [|split; [reflexivity|simpl; apply sort_In, Hin]].
    apply (in_map (fun k => Group k (sort newest_first
                                       (with_key (label now) k items)))).
    apply List.filter_In. split.
    + unfold k. rewrite <- getTimelineGroup_bucket.
      apply getTimelineGroup_in_order.
    + destruct (with_key (label now) k items); [destruct Hin|reflexivity].
  - intros g Hg. apply in_map_iff in Hg as (k & <- & _). simpl. split.
    + rewrite <- with_key_label_bucket. apply sort_perm.
    + apply newest_first_sorted.
Qed.

End Midnights.
End TimelineFacts.

(** A zone without clock changes has all its midnights, in order, and
    its calendar never goes back. *)
Lemma fixed_midnights_exist offset :
  Timeline.midnights_exist (Timeline.fixed offset).
Proof.
  unfold Timeline.midnights_exist, Timeline.fixed, Timeline.msPerDay;
    cbn [Timeline.localTime Timeline.utc].
  split; intros; lia.
Qed.

Lemma fixed_days_advance offset : Timeline.days_advance (Timeline.fixed offset).
Proof.
  unfold Timeline.days_advance, Timeline.day_number, Timeline.fixed,
    Timeline.msPerDay; cbn [Timeline.localTime].
  intros a b Hab. apply Z.div_le_mono; lia.
Qed.

(** New York keeps its midnights: the clocks change at 02:00. *)
Lemma new_york_midnights_exist : Timeline.midnights_exist Samples.new_york.
Proof.
  unfold Timeline.midnights_exist, Samples.new_york, Timeline.msPerDay,
    Samples.hour; cbn [Timeline.localTime Timeline.utc].
  split.
  - intros d.
    repeat match goal with
           | |- context [if ?b then _ else _] => destruct b eqn:?
           end;
    repeat match goal with
           | H : _ && _ = true |- _ => apply andb_true_iff in H as [? ?]
           | H : _ && _ = false |- _ => apply andb_false_iff in H as [?|?]
           | H : (_ <=? _) = true |- _ => apply Z.leb_le in H
           | H : (_ <=? _) = false |- _ => apply Z.leb_gt in H
           | H : (_ <? _) = true |- _ => apply Z.ltb_lt in H
           | H : (_ <? _) = false |- _ => apply Z.ltb_ge in H
           end; lia.
  - intros d d' Hlt.
    repeat match goal with
           | |- context [if ?b then _ else _] => destruct b eqn:?
           end;
    repeat match goal with
           | H : (_ <? _) = true |- _ => apply Z.ltb_lt in H
           | H : (_ <? _) = false |- _ => apply Z.ltb_ge in H
           end; lia.
Qed.

(** Nor does its calendar ever go back: the hour that November repeats
    is from 01:00 to 02:00. *)
Lemma new_york_days_advance : Timeline.days_advance Samples.new_york.
Proof.
  unfold Timeline.days_advance, Timeline.day_number, Samples.new_york,
    Timeline.msPerDay, Samples.hour; cbn [Timeline.localTime].
  intros a b Hab.
  repeat match goal with
         | |- context [if ?b then _ else _] => destruct b eqn:?
         end;
  repeat match goal with
         | H : _ && _ = true |- _ => apply andb_true_iff in H as [? ?]
         | H : _ && _ = false |- _ => apply andb_false_iff in H as [?|?]
         | H : (_ <=? _) = true |- _ => apply Z.leb_le in H
         | H : (_ <=? _) = false |- _ => apply Z.leb_gt in H
         | H : (_ <? _) = true |- _ => apply Z.ltb_lt in H
         | H : (_ <? _) = false |- _ => apply Z.ltb_ge in H
         end;
  Z.to_euclidean_division_equations; lia.
Qed.

(** The first of November 2026 in New York lasts 25 hours: half past
    midnight and half past eleven in the evening are the same day. *)
Example long_day_in_new_york :
  Timeline.getTimelineGroup Samples.new_york 1793593800000 1793507400000
  = "Today"%string.
Proof. reflexivity. Qed.

(** C4.  Havana, Sunday 8 March 2026, the day summer time begins at
    midnight.  At noon a record created at noon the day before lies one
    calendar day back, which is the bucket ["Yesterday"], and the code
    labels it ["Last 7 Days"]: [today] is 01:00, so [yesterday] is 01:00
    of the day before, which no local midnight equals. *)
Lemma yesterday_after_skipped_midnight :
  Timeline.day_number Samples.havana Samples.havana_noon_before
  = Timeline.day_number Samples.havana Samples.havana_noon - 1
  /\ Timeline.bucket Samples.havana Samples.havana_noon
       Samples.havana_noon_before = "Yesterday"%string
  /\ StoredItemsPage.getTimelineGroup Samples.havana Samples.havana_noon
       Samples.havana_noon_before = "Last 7 Days"%string
  /\ ImportantDocumentsPage.getTimelineGroup Samples.havana
       Samples.havana_noon Samples.havana_noon_before = "Last 7 Days"%string
  /\ Timeline.localTime Samples.havana
       (Timeline.startOfDay Samples.havana Samples.havana_noon)
     = Timeline.day_number Samples.havana Samples.havana_noon
       * Timeline.msPerDay + Samples.hour.
Proof. repeat split. Qed.

(* ===================================================================== *)
(** * Properties of the category and type groupings *)
(* ===================================================================== *)

Section EntriesFacts.
Import Js.
Context {A : Type}.

Lemma filter_partition_perm {B : Type} (p : B -> bool) l :
  Permutation (List.filter p l ++ List.filter (fun x => negb (p x)) l) l.
Proof.
  induction l as [|x l IH]; simpl; [reflexivity|].
  destruct (p x); simpl.
  - constructor. exact IH.
  - rewrite <- Permutation_middle. constructor. exact IH.
Qed.

(** [Object.entries] lists every own property once. *)
Lemma entries_perm (o : object A) : Permutation (entries o) o.
Proof.
  unfold entries. rewrite sort_perm. apply filter_partition_perm.
Qed.



Lemma In_grouped (key : A -> string) l e :
  In e (grouped key l) <->
  In (fst e) (map key l) /\ snd e = with_key key (fst e) l.
Proof.
  unfold grouped. rewrite in_map_iff. split.
  - intros (k & <- & Hk). rewrite first_occurrences_In in Hk. auto.
  - intros [Hk He]. exists (fst e). rewrite first_occurrences_In.
    split; [|exact Hk]. destruct e; simpl in *. congruence.
Qed.

End EntriesFacts.

Section CategoryFacts.
Import Js StoredItemsPage ImportantDocumentsPage.
Context (localeCompare : string -> string -> Z).

Abbreviation by_name :=
  (fun a b : string * list item => localeCompare (fst a) (fst b)).

Lemma groupedItems_closed (l : list item) :
  Forall (fun i => is_prototype_key (category_key i) = false) l ->
  groupedItems localeCompare l =
  Ok (map (fun e => CategoryGroup (fst e) (snd e))
          (sort by_name (entries (grouped category_key l)))).
Proof.
  intros Hl. unfold groupedItems.
  destruct (length l =? 0)%nat eqn:Hlen.
  - apply Nat.eqb_eq in Hlen. destruct l; [reflexivity|discriminate].
  - rewrite group_by_grouped by exact Hl. reflexivity.
Qed.

Lemma typeGroups_closed (l : list document) :
  Forall (fun d => is_prototype_key (type_key d) = false) l ->
  typeGroups l = Ok (entries (grouped type_key l)).
Proof.
  intros Hl. unfold typeGroups, groupedDocuments.
  rewrite group_by_grouped by exact Hl. reflexivity.
Qed.




(** The host's collation is a consistent comparator. *)
Hypothesis localeCompare_total :
  forall a b, localeCompare a b <= 0 \/ localeCompare b a <= 0.
Hypothesis localeCompare_trans :
  forall a b c, localeCompare a b <= 0 -> localeCompare b c <= 0 ->
                localeCompare a c <= 0.
Hypothesis localeCompare_sign :
  forall a b, localeCompare b a < 0 -> 0 < localeCompare a b.


End CategoryFacts.

(* ===================================================================== *)
(** * The sample collation is a consistent comparator *)
(* ===================================================================== *)

Section CollateFacts.
Import Js Samples.









End CollateFacts.



Example sample_shed_groups :
  StoredItemsPage.groupedItems Samples.collate
    [Samples.hammer; Samples.pliers; Samples.charger; Samples.saw]
  = Js.Ok
      [ StoredItemsPage.CategoryGroup "tools" [Samples.pliers];
        StoredItemsPage.CategoryGroup "Tools" [Samples.hammer; Samples.saw];
        StoredItemsPage.CategoryGroup "Uncategorized" [Samples.charger] ].
Proof. vm_compute. reflexivity. Qed.

Example car_keys_search :
  ImportantDocumentsPage.filteredDocuments "all" "keys" [Samples.car_keys]
    = [Samples.car_keys]
  /\ ImportantDocumentsPage.filteredDocuments "all" "spare" [Samples.car_keys]
     = [Samples.car_keys]
  /\ ImportantDocumentsPage.filteredDocuments "all" "wallet" [Samples.car_keys]
     = [].
Proof. repeat split. Qed.

(** Case is ignored beyond ASCII, and a no-break space is white space:
    the query [café] finds [CAFÉ receipt], a category of one no-break
    space is no category, and a name of one no-break space is refused. *)
Example latin1_samples :
  ImportantDocumentsPage.filteredDocuments "all" Samples.cafe_query
    [Samples.cafe_receipt; Samples.passport] = [Samples.cafe_receipt]
  /\ StoredItemsPage.category_key
       (StoredItemsPage.Item 9 "Cup" "Shelf" (Some Samples.no_break_space) 0)
     = "Uncategorized"%string
  /\ ImportantDocumentsPage.missing_required
       (ImportantDocumentsPage.Form Samples.no_break_space
          (Some "passport"%string) "" None None false None) = true.
Proof. repeat split. Qed.

(** A category that names an inherited property stops the grouping. *)
Example inherited_key_throws :
  StoredItemsPage.groupedItems Samples.collate
    [StoredItemsPage.Item 5 "Crane" "Yard" (Some "constructor"%string) 0]
  = Js.Throw (Js.Error "acc[key].push is not a function").
Proof. reflexivity. Qed.

(* ===================================================================== *)
(** * More on the cache store *)
(* ===================================================================== *)

Section DataCacheMore.
Context {K : Type} `{Countable K} {V : Type}.
Import DataCache.
Implicit Types (c : DataCache.t K V) (key : K).

Lemma aligned_lookup c key :
  aligned c -> (cache c !! key = None <-> timestamps c !! key = None).
Proof.
  unfold aligned. intros Hc.
  rewrite <- !not_elem_of_dom. now rewrite Hc.
Qed.

(** X1.  A read no later than the expiry recorded by [set] returns the
    value just stored, whatever the store held before, and leaves the
    store as [set] left it. *)
Theorem set_then_get_while_live c key (data : option V) ttl now now' :
  now' <= now + ttl -> now + ttl <> 0 ->
  get now' key (set now key data ttl c) = (set now key data ttl c, data).
Proof.
  intros Hle Hz.
  destruct (set_records_expiry now key data ttl c) as [Ht Hc].
  rewrite (get_of_live now' key _ (now + ttl) Ht Hz Hle).
  unfold Map_get. now rewrite Hc.
Qed.

(** X2.  [set], [get] and [invalidate] on one key never change what a
    read of another key returns. *)
Theorem other_keys_untouched c (o : op) key key' t now :
  op_key o = Some key -> key <> key' ->
  snd (get now key' (exec t o c)) = snd (get now key' c).
Proof.
  intros Ho Hne.
  assert (Hsame : timestamps (exec t o c) !! key' = timestamps c !! key'
                  /\ cache (exec t o c) !! key' = cache c !! key').
  { destruct o as [k d ttl|k|k|]; simpl in Ho; try discriminate;
      injection Ho as ->; simpl.
    - now rewrite !lookup_insert_ne.
    - unfold get. destruct (expired t (timestamps c !! key)); simpl; [|auto].
      now rewrite !lookup_delete_ne.
    - now rewrite !lookup_delete_ne. }
  destruct Hsame as [Ht Hc]. unfold get. rewrite Ht.
  destruct (expired now (timestamps c !! key')); simpl; [reflexivity|].
  unfold Map_get. now rewrite Hc.
Qed.

(** X3.  In a store built by any history of operations, [get] returns
    [null] for a key that has no expiry recorded, whose expiry is 0 or
    whose expiry the clock has passed; for any other key the map holds a
    value and [get] returns exactly that value.  So a [null] result means
    a miss or a stored [null], and nothing else. *)
Theorem get_returns_what_is_stored_while_live
    (h : list (Z * op (K:=K) (V:=V))) key now :
  let c := run h new in
  (expired now (timestamps c !! key) = true -> snd (get now key c) = None)
  /\ (expired now (timestamps c !! key) = false ->
      exists data, cache c !! key = Some data /\ snd (get now key c) = data)
  /\ (snd (get now key c) = None
      <-> expired now (timestamps c !! key) = true
          \/ cache c !! key = Some None).
Proof.
  intros c. pose proof (aligned_run h new aligned_new) as Hal.
  fold c in Hal.
  assert (Hlive : expired now (timestamps c !! key) = false ->
                  exists data, cache c !! key = Some data
                               /\ snd (get now key c) = data).
  { intros He. unfold get. rewrite He. cbn [snd]. unfold Map_get.
    destruct (cache c !! key) as [data|] eqn:Hc; [eauto|].
    apply (aligned_lookup c key Hal) in Hc. rewrite Hc in He. discriminate. }
  assert (Hdead : expired now (timestamps c !! key) = true ->
                  snd (get now key c) = None).
  { intros He. unfold get. now rewrite He. }
  split; [exact Hdead|]. split; [exact Hlive|]. split.
  - intros Hn. destruct (expired now (timestamps c !! key)) eqn:He; [auto|].
    destruct (Hlive eq_refl) as (data & Hc & Hd). right. congruence.
  - intros [He|Hc]; [auto|].
    destruct (expired now (timestamps c !! key)) eqn:He; [auto|].
    destruct (Hlive eq_refl) as (data & Hc' & Hd). congruence.
Qed.

(** X4.  In a store built by any history of operations, after
    [invalidate(key)] a read of the key is absent at any time, and
    invalidating a key that has no entry changes nothing. *)
Theorem invalidate_removes (h : list (Z * op (K:=K) (V:=V))) key now :
  snd (get now key (invalidate key (run h new))) = None
  /\ (timestamps (run h new) !! key = None ->
      invalidate key (run h new) = run h new).
Proof.
  pose proof (aligned_run h new aligned_new) as Hal.
  set (c := run h new) in *. split.
  - unfold get, invalidate; simpl. now rewrite lookup_delete_eq.
  - intros Hn. pose proof (proj2 (aligned_lookup c key Hal) Hn) as Hc.
    unfold invalidate. rewrite !delete_id by assumption. now destruct c.
Qed.

End DataCacheMore.

Lemma set_then_get_while_live_witness :
  DataCache.get 1500 "k"%string
    (DataCache.set 1000 "k"%string (Some 7%nat) 500 DataCache.new)
  = (DataCache.set 1000 "k"%string (Some 7%nat) 500 DataCache.new,
     Some 7%nat).
Proof.
  apply (set_then_get_while_live DataCache.new "k"%string (Some 7%nat) 500 1000
           1500);
    lia.
Defined.

Lemma other_keys_untouched_witness :
  snd (DataCache.get 1200 "b"%string
         (DataCache.exec 1100 (DataCache.OpInvalidate "a"%string)
            (DataCache.set 1000 "b"%string (Some 7%nat) 500 DataCache.new)))
  = snd (DataCache.get 1200 "b"%string
           (DataCache.set 1000 "b"%string (Some 7%nat) 500 DataCache.new)).
Proof.
  apply (other_keys_untouched
           (DataCache.set 1000 "b"%string (Some 7%nat) 500 DataCache.new)
           (DataCache.OpInvalidate "a"%string) "a"%string "b"%string 1100 1200).
  - reflexivity.
  - discriminate.
Defined.

(* ===================================================================== *)
(** * More on the cached-fetch controller *)
(* ===================================================================== *)

Section UseCachedDataMore.
Import Js UseCachedData.
Context {T : Type} (truthy : T -> bool).
Context (fetchFunction : nat -> outcome (T:=T)) (cacheTime : Z).

Abbreviation fetchData' := (UseCachedData.fetchData truthy fetchFunction cacheTime).
Abbreviation fresh' := (UseCachedData.fresh truthy cacheTime).
Abbreviation perform' := (UseCachedData.perform truthy fetchFunction cacheTime).
Abbreviation perform_all' :=
  (UseCachedData.perform_all truthy fetchFunction cacheTime).

(** The four ways a call can end. *)
Lemma fetchData_cases force now s :
  (fresh' force now s = true
   /\ fetchData' force now s =
        (Ok (cachedData s),
         {| data := cachedData s; loading := false; error := error s;
            lastFetchTime := lastFetchTime s; cachedData := cachedData s;
            calls := calls s |}))
  \/ (fresh' force now s = false
      /\ exists r, fetchFunction (calls s) = Resolved r /\ success r = true
         /\ fetchData' force now s =
              (Ok (rdata r),
               {| data := rdata r; loading := false; error := None;
                  lastFetchTime := now; cachedData := rdata r;
                  calls := S (calls s) |}))
  \/ (fresh' force now s = false
      /\ exists message,
           failure (fetchFunction (calls s)) = Some (Value message)
           /\ fetchData' force now s =
                (Ok None,
                 {| data := data s; loading := false; error := message;
                    lastFetchTime := lastFetchTime s;
                    cachedData := cachedData s; calls := S (calls s) |}))
  \/ (fresh' force now s = false
      /\ fetchFunction (calls s) = Rejected Nullish
      /\ fetchData' force now s =
           (Throw (Error "Cannot read properties of null (reading 'message')"),
            {| data := data s; loading := false; error := None;
               lastFetchTime := lastFetchTime s;
               cachedData := cachedData s; calls := S (calls s) |})).
Proof.
  destruct (fresh' force now s) eqn:Hf.
  - left. split; [reflexivity|]. now apply fetchData_fresh.
  - right.
    destruct (failure_or_success (fetchFunction (calls s)))
      as [(r & Ho & Hs & _)|[(m & Hm)|[Ho _]]].
    + left. split; [reflexivity|]. exists r. repeat split; try assumption.
      now apply fetchData_success.
    + right; left. split; [reflexivity|]. exists m. split; [assumption|].
      now apply fetchData_failure.
    + right; right. split; [reflexivity|]. split; [assumption|].
      now apply fetchData_escapes.
Qed.

(** X5.  Every call ends with [loading] false and invokes the operation
    exactly once, without retry, unless it is served from the cache, in
    which case it invokes nothing and leaves the [error], the cached
    value and its timestamp as they were. *)
Theorem fetchData_invokes_once force now s :
  let s' := snd (fetchData truthy fetchFunction cacheTime force now s) in
  loading s' = false
  /\ (fresh truthy cacheTime force now s = false -> calls s' = S (calls s))
  /\ (fresh truthy cacheTime force now s = true ->
      calls s' = calls s /\ error s' = error s
      /\ cachedData s' = cachedData s /\ lastFetchTime s' = lastFetchTime s).
Proof.
  destruct (fetchData_cases force now s)
    as [[Hf ->]|[[Hf (r & _ & _ & ->)]|[[Hf (m & _ & ->)]|[Hf [_ ->]]]]];
    simpl; rewrite Hf; repeat split; auto; discriminate.
Qed.

(** X6.  After [invalidateCache()] the next [fetchData(false)] invokes
    the operation, however recent the last fetch was; when that fetch
    succeeds its payload is returned and stamped with the entry time. *)
Theorem invalidateCache_then_fetch now s :
  let s0 := snd (invalidateCache s) in
  calls (snd (fetchData' false now s0)) = S (calls s)
  /\ forall r, fetchFunction (calls s) = Resolved r -> success r = true ->
       fst (fetchData' false now s0) = Ok (rdata r)
       /\ cachedData (snd (fetchData' false now s0)) = rdata r
       /\ lastFetchTime (snd (fetchData' false now s0)) = now.
Proof.
  set (s0 := snd (invalidateCache s)). cbv zeta.
  assert (Hf : fresh' false now s0 = false) by reflexivity.
  assert (Hc : calls s0 = calls s) by reflexivity.
  split.
  - apply invalidateCache_forces_fetch.
  - intros r Ho Hs. rewrite <- Hc in Ho.
    rewrite (fetchData_success truthy fetchFunction cacheTime false now s0 r)
      by assumption. simpl. auto.
Qed.

(** X7.  With a cache time of zero or less nothing is ever served from
    the cache: as long as the clock has not gone back behind the stored
    fetch time, every call invokes the operation. *)
Theorem nonpositive_cacheTime_disables_cache force now s :
  cacheTime <= 0 -> lastFetchTime s <= now ->
  calls (snd (fetchData truthy fetchFunction cacheTime force now s))
  = S (calls s).
Proof.
  intros Hc Hnow.
  assert (Hf : fresh' force now s = false).
  { unfold UseCachedData.fresh.
    destruct (now - lastFetchTime s <? cacheTime) eqn:E.
    - apply Z.ltb_lt in E. lia.
    - now rewrite andb_false_r. }
  destruct (fetchData_cases force now s)
    as [[Hf' _]|[[_ (r & _ & _ & ->)]|[[_ (m & _ & ->)]|[_ [_ ->]]]]];
    [congruence|reflexivity|reflexivity|reflexivity].
Qed.

Lemma perform_shows_cache a s :
  shows_cache s -> shows_cache (perform' a s).
Proof.
  intros Hs. destruct a as [force now|now|]; simpl.
  - destruct (fetchData_cases force now s)
      as [[_ ->]|[[_ (r & _ & _ & ->)]|[[_ (m & _ & ->)]|[_ [_ ->]]]]];
      unfold shows_cache; simpl; auto.
  - unfold UseCachedData.refresh.
    destruct (fetchData_cases true now s)
      as [[_ ->]|[[_ (r & _ & _ & ->)]|[[_ (m & _ & ->)]|[_ [_ ->]]]]];
      unfold shows_cache; simpl; auto.
  - unfold shows_cache. simpl. auto.
Qed.

(** X8.  Whatever a component does with the hook after mounting, any
    fetches, refreshes and invalidations in any order, the [data] it
    exposes is the cached value whenever a cached value exists. *)
Theorem data_shows_cache (l : list (action)) :
  let s := perform_all' l init in
  cachedData s = None \/ data s = cachedData s.
Proof.
  cbv zeta. change (shows_cache (perform_all' l (init (T:=T)))).
  assert (Hgen : forall s, shows_cache s -> shows_cache (perform_all' l s)).
  { induction l as [|a l IH]; intros s Hs; simpl; [exact Hs|].
    apply IH, perform_shows_cache, Hs. }
  apply Hgen. left. reflexivity.
Qed.

End UseCachedDataMore.

Lemma nonpositive_cacheTime_disables_cache_witness :
  UseCachedData.calls
    (snd (UseCachedData.fetchData Samples.array_truthy Samples.online 0
            false 1000 Samples.fetched)) = 2%nat.
Proof.
  apply (nonpositive_cacheTime_disables_cache Samples.array_truthy
           Samples.online 0 false 1000 Samples.fetched); simpl; lia.
Defined.

(* ===================================================================== *)
(** * More on filtering and searching documents *)
(* ===================================================================== *)

Section FilterMore.
Import Js ImportantDocumentsPage.
Local Open Scope string_scope.




Lemma with_key_all {A : Type} (key : A -> string) k (l : list A) :
  Forall (fun x => key x = k) l -> with_key key k l = l.
Proof.
  unfold with_key. induction 1 as [|x l Hx _ IH]; simpl; [reflexivity|].
  rewrite Hx, String.eqb_refl. now rewrite IH.
Qed.

Lemma first_occurrences_constant k ks :
  Forall (eq k) ks -> ks <> [] -> first_occurrences ks = [k].
Proof.
  induction 1 as [|x ks <- Hks IH]; [congruence|]. intros _.
  destruct ks as [|y ks]; [reflexivity|].
  cbn [first_occurrences] in *. rewrite IH by discriminate.
  simpl. now rewrite String.eqb_refl.
Qed.

Lemma entries_single {A : Type} k (a : A) : entries [(k, a)] = [(k, a)].
Proof. unfold entries. simpl. destruct (is_array_index k); reflexivity. Qed.

(** X10.  With a specific type selected in the filter (not ["all"], not
    the empty string, not the name of an inherited property), the type
    view has at most one group: none when nothing matches, otherwise one
    group named after the filter that holds the whole result. *)
Theorem typed_filter_gives_one_group filterType q documents :
  filterType <> "all" -> filterType <> "" ->
  is_prototype_key filterType = false ->
  typeGroups (filteredDocuments filterType q documents) =
  Ok match filteredDocuments filterType q documents with
     | [] => []
     | l => [(filterType, l)]
     end.
Proof.
  intros Hall Hne Hp.
  assert (Hkeys : Forall (fun d => type_key d = filterType)
                         (filteredDocuments filterType q documents)).
  { apply Forall_forall. intros d Hd. apply list_elem_of_In in Hd.
    unfold filteredDocuments in Hd. apply List.filter_In in Hd as [_ Hm].
    apply andb_true_iff in Hm as [Ht _]. apply matchesType_spec in Ht.
    destruct Ht as [Ht|Ht]; [contradiction|].
    unfold type_key. rewrite Ht.
    destruct (String.eqb_spec filterType ""); [contradiction|reflexivity]. }
  set (l := filteredDocuments filterType q documents) in *.
  rewrite typeGroups_closed.
  2:{ eapply List.Forall_impl; [|exact Hkeys]. intros d ->. exact Hp. }
  f_equal. destruct l as [|d l']; [reflexivity|].
  unfold grouped. rewrite (first_occurrences_constant filterType).
  - cbn [map]. rewrite (with_key_all type_key filterType _ Hkeys).
    apply entries_single.
  - apply Forall_forall. intros k Hk. apply list_elem_of_In, in_map_iff in Hk.
    destruct Hk as (x & <- & Hx). symmetry.
    rewrite Forall_forall in Hkeys. apply Hkeys. now apply list_elem_of_In.
  - discriminate.
Qed.

End FilterMore.


Lemma typed_filter_gives_one_group_witness :
  ImportantDocumentsPage.typeGroups
    (ImportantDocumentsPage.filteredDocuments "id" ""
       [Samples.passport; Samples.id_card; Samples.untyped])
  = Js.Ok
      match ImportantDocumentsPage.filteredDocuments "id" ""
              [Samples.passport; Samples.id_card; Samples.untyped] with
      | [] => []
      | l => [("id"%string, l)]
      end.
Proof.
  apply (typed_filter_gives_one_group "id" ""
           [Samples.passport; Samples.id_card; Samples.untyped]);
    [discriminate|discriminate|reflexivity].
Defined.

(* ===================================================================== *)
(** * More on the grouped views *)
(* ===================================================================== *)

Section PartitionFacts.
Import Js.
Context {A : Type}.

Lemma concat_perm (l1 l2 : list (list A)) :
  Permutation l1 l2 -> Permutation (concat l1) (concat l2).
Proof.
  induction 1 as [|x l l' _ IH|x y l|l l' l'' _ IH1 _ IH2]; simpl.
  - reflexivity.
  - now apply Permutation_app_head.
  - rewrite !app_assoc. apply Permutation_app_tail, Permutation_app_comm.
  - now transitivity (concat l').
Qed.

Lemma concat_insert_at (f : string -> list A) k0 x ks :
  List.NoDup ks -> In k0 ks ->
  Permutation
    (concat (map (fun k => if String.eqb k0 k then x :: f k else f k) ks))
    (x :: concat (map f ks)).
Proof.
  induction 1 as [|k ks Hk Hnd IH]; intros Hin; [destruct Hin|].
  simpl. destruct (String.eqb_spec k0 k) as [->|Hne].
  - simpl. constructor. apply Permutation_app_head.
    apply Permutation_refl'. f_equal. apply map_ext_in. intros k' Hk'.
    destruct (String.eqb_spec k k') as [->|]; [contradiction|reflexivity].
  - destruct Hin as [Heq|Hin]; [congruence|].
    rewrite (IH Hin). symmetry. apply Permutation_middle.
Qed.

(** Splitting a list by key over a duplicate-free list of keys that
    covers every element loses nothing and repeats nothing. *)
Lemma with_key_partition (key : A -> string) ks l :
  List.NoDup ks -> (forall x, In x l -> In (key x) ks) ->
  Permutation (concat (map (fun k => with_key key k l) ks)) l.
Proof.
  intros Hnd. induction l as [|x l IH]; intros Hcov.
  - apply Permutation_refl'. clear. induction ks as [|k ks IHk]; [reflexivity|].
    simpl. exact IHk.
  - assert (Hcov' : forall y, In y l -> In (key y) ks).
    { intros y Hy. apply Hcov. now right. }
    specialize (IH Hcov').
    transitivity (x :: concat (map (fun k => with_key key k l) ks));
      [|now constructor].
    rewrite <- (concat_insert_at (fun k => with_key key k l) (key x) x ks Hnd).
    + apply Permutation_refl'. reflexivity.
    + apply Hcov. now left.
Qed.

Lemma concat_skip_empty (f : string -> list A) ks :
  concat (map f (List.filter (fun k => (0 <? length (f k))%nat) ks))
  = concat (map f ks).
Proof.
  induction ks as [|k ks IH]; [reflexivity|]. simpl.
  destruct (f k) eqn:E; simpl; rewrite ?E; simpl; now rewrite IH.
Qed.

Lemma grouped_partition (key : A -> string) l :
  Permutation (concat (map snd (grouped key l))) l.
Proof.
  unfold grouped. rewrite map_map. simpl.
  apply with_key_partition.
  - apply NoDup_ListNoDup, first_occurrences_NoDup.
  - intros x Hx. apply first_occurrences_In. now apply in_map.
Qed.

Lemma StronglySorted_app (R : A -> A -> Prop) l1 l2 :
  StronglySorted R l1 -> StronglySorted R l2 ->
  (forall x y, In x l1 -> In y l2 -> R x y) ->
  StronglySorted R (l1 ++ l2).
Proof.
  induction 1 as [|x l1 Hl1 IH Hx]; intros Hl2 Hcross; simpl; [exact Hl2|].
  constructor.
  - apply IH; [exact Hl2|]. intros a b Ha Hb. apply Hcross; [now right|exact Hb].
  - apply List.Forall_app. split; [exact Hx|].
    apply List.Forall_forall. intros y Hy. apply Hcross; [now left|exact Hy].
Qed.

End PartitionFacts.

Section TimelineMore.
Import Js Timeline.
Context {R : Type} (created_at : R -> Z) (tz : zone).

Abbreviation label' now := (fun r : R => getTimelineGroup tz now (created_at r)).
Abbreviation newest := (Timeline.newest_first created_at).
Abbreviation newest_group now items :=
  (fun k => sort newest (with_key (label' now) k items)).

Lemma concat_map_perm {B : Type} (f g : string -> list B) ks :
  (forall k, Permutation (f k) (g k)) ->
  Permutation (concat (map f ks)) (concat (map g ks)).
Proof.
  intros Hfg. induction ks as [|k ks IH]; simpl; [reflexivity|].
  now apply Permutation_app.
Qed.

(** The groups laid end to end: the four sorted buckets in the fixed
    order, the empty ones contributing nothing. *)
Lemma timeline_flat now items :
  exists gs,
    timelineGroups created_at tz now items = Ok gs
    /\ concat (map records gs) = concat (map (newest_group now items) order)
    /\ forall g, In g gs ->
         records g = newest_group now items (groupName g).
Proof.
  eexists. split; [apply timelineGroups_closed|]. split.
  - rewrite map_map. cbn [records].
    rewrite <- (concat_skip_empty (newest_group now items) order).
    f_equal. f_equal. apply List.filter_ext. intros k.
    now rewrite (Permutation_length (sort_perm newest _)).
  - intros g Hg. apply in_map_iff in Hg as (k & <- & _). reflexivity.
Qed.

(** X11.  The timeline view shows every record exactly once: its groups
    laid end to end are a rearrangement of the input list. *)
Theorem timeline_shows_each_record_once now items :
  exists gs,
    timelineGroups created_at tz now items = Ok gs
    /\ Permutation (concat (map records gs)) items.
Proof.
  destruct (timeline_flat now items) as (gs & Hgs & Hflat & _).
  exists gs. split; [exact Hgs|]. rewrite Hflat.
  rewrite (concat_map_perm (newest_group now items)
             (fun k => with_key (label' now) k items)).
  - apply with_key_partition; [apply order_NoDup|].
    intros r _. apply getTimelineGroup_in_order.
  - intros k. apply sort_perm.
Qed.

(** X12.  Records created at the same instant keep, inside their group,
    the order they had in the input list. *)
Theorem timeline_ties_keep_input_order now items :
  exists gs,
    timelineGroups created_at tz now items = Ok gs
    /\ forall g t, In g gs ->
         List.filter (fun r => created_at r =? t) (records g)
         = List.filter (fun r => created_at r =? t)
             (with_key (label' now) (groupName g) items).
Proof.
  destruct (timeline_flat now items) as (gs & Hgs & _ & Hrec).
  exists gs. split; [exact Hgs|]. intros g t Hg. rewrite (Hrec g Hg).
  apply sort_stable. intros a b Ha Hb.
  apply Z.eqb_eq in Ha, Hb. unfold Timeline.newest_first. lia.
Qed.

Section Calendar.
(** From here on every calendar day of the zone has its 00:00 and later
    days start later. *)
Hypothesis Hmid : midnights_exist tz.

(** The label of a date in terms of calendar days. *)
Lemma getTimelineGroup_days now date :
  let d := day_number tz date in
  let n := day_number tz now in
  (getTimelineGroup tz now date = "Today"%string /\ d = n)
  \/ (getTimelineGroup tz now date = "Yesterday"%string /\ d = n - 1)
  \/ (getTimelineGroup tz now date = "Last 7 Days"%string
      /\ n - 7 <= d /\ d <> n /\ d <> n - 1)
  \/ (getTimelineGroup tz now date = "Earlier"%string /\ d < n - 7).
Proof.
  cbv zeta. rewrite (getTimelineGroup_bucket tz Hmid). unfold bucket.
  destruct (Z.eqb_spec (day_number tz date) (day_number tz now)); [auto|].
  destruct (Z.eqb_spec (day_number tz date) (day_number tz now - 1)); [auto|].
  destruct (Z.geb_spec (day_number tz date) (day_number tz now - 7)).
  - right; right; left. repeat split; auto; lia.
  - right; right; right. split; [reflexivity|lia].
Qed.

(** X13.  In a zone where every calendar day has its 00:00 and later
    days start later, a record dated on a later calendar day than today
    is labelled ["Last 7 Days"]. *)
Theorem future_date_is_last_7_days now date :
  day_number tz now < day_number tz date ->
  getTimelineGroup tz now date = "Last 7 Days"%string.
Proof.
  intros Hfut.
  destruct (getTimelineGroup_days now date)
    as [[_ Hd]|[[_ Hd]|[[Hl _]|[_ Hd]]]]; try lia. exact Hl.
Qed.

Lemma newest_group_label now items k r :
  In r (newest_group now items k) ->
  getTimelineGroup tz now (created_at r) = k.
Proof.
  intros Hr. apply sort_In in Hr. unfold with_key in Hr.
  apply List.filter_In in Hr as [_ Hk]. now apply String.eqb_eq in Hk.
Qed.

(** From here on the calendar never goes back either. *)
Hypothesis Hadv : days_advance tz.

Lemma earlier_day_earlier_time a b :
  day_number tz a < day_number tz b -> a <= b.
Proof.
  intros Hd. destruct (Z.le_gt_cases a b) as [Hle|Hgt]; [exact Hle|].
  assert (Hba : b <= a) by lia. apply Hadv in Hba. lia.
Qed.

(** A record of an earlier bucket is at least as new as one of a later
    bucket, when neither is dated after today. *)
Lemma buckets_descend now items kx ky x y :
  In (kx, ky)
     [ ("Today", "Yesterday"); ("Today", "Last 7 Days"); ("Today", "Earlier");
       ("Yesterday", "Last 7 Days"); ("Yesterday", "Earlier");
       ("Last 7 Days", "Earlier") ]%string ->
  In x (newest_group now items kx) -> In y (newest_group now items ky) ->
  day_number tz (created_at x) <= day_number tz now ->
  day_number tz (created_at y) <= day_number tz now ->
  created_at y <= created_at x.
Proof.
  intros Hpair Hx Hy Hdx Hdy.
  apply newest_group_label in Hx, Hy.
  apply earlier_day_earlier_time.
  destruct (getTimelineGroup_days now (created_at x))
    as [[Lx Dx]|[[Lx Dx]|[[Lx Dx]|[Lx Dx]]]];
  destruct (getTimelineGroup_days now (created_at y))
    as [[Ly Dy]|[[Ly Dy]|[[Ly Dy]|[Ly Dy]]]];
  rewrite Lx in Hx; rewrite Ly in Hy; subst kx ky;
  simpl in Hpair;
  repeat (destruct Hpair as [Hpair|Hpair]; [try discriminate Hpair|]);
  try contradiction; lia.
Qed.

(** X14.  In a zone where every calendar day has its 00:00, later days
    start later and the calendar never goes back, when no record is
    dated after today the timeline reads newest first from top to
    bottom: the groups laid end to end are in descending order of
    creation time. *)
Theorem timeline_reads_newest_first now items :
  Forall (fun r => day_number tz (created_at r) <= day_number tz now) items ->
  exists gs,
    timelineGroups created_at tz now items = Ok gs
    /\ StronglySorted (fun a b => created_at b <= created_at a)
         (concat (map records gs)).
Proof.
  intros Hpast.
  destruct (timeline_flat now items) as (gs & Hgs & Hflat & _).
  exists gs. split; [exact Hgs|]. rewrite Hflat.
  assert (Hday : forall k r, In r (newest_group now items k) ->
                 day_number tz (created_at r) <= day_number tz now).
  { intros k r Hr. apply sort_In in Hr. unfold with_key in Hr.
    apply List.filter_In in Hr as [Hr _].
    rewrite List.Forall_forall in Hpast. now apply Hpast. }
  unfold order. cbn [map concat]. rewrite app_nil_r.
  repeat apply StronglySorted_app; try apply newest_first_sorted.
  all: intros x y Hx Hy.
  all: repeat match goal with
         | H : In _ (_ ++ _) |- _ => apply in_app_or in H as [H|H]
         end.
  all: eapply (buckets_descend now items); eauto; simpl; auto 10.
Qed.

End Calendar.
End TimelineMore.

Section GroupingMore.
Import Js.
Context {A : Type} (key : A -> string).

Lemma own_grouped_inherited l k :
  Forall (fun x => is_prototype_key (key x) = false) l ->
  is_prototype_key k = true -> own (grouped key l) k = None.
Proof.
  intros Hl Hk. rewrite own_grouped.
  destruct (existsb (String.eqb k) (map key l)) eqn:E; [|reflexivity].
  apply In_existsb_eqb, in_map_iff in E as (x & Hx & Hin).
  rewrite List.Forall_forall in Hl. specialize (Hl x Hin). congruence.
Qed.

(** The [reduce] succeeds exactly when no key names an inherited
    property, and then it yields the groups in closed form. *)
Lemma group_by_Ok l o :
  group_by key l = Ok o <->
  Forall (fun x => is_prototype_key (key x) = false) l /\ o = grouped key l.
Proof.
  split.
  - revert o. induction l as [|x l IH] using rev_ind; intros o.
    + intros Ho. injection Ho as <-. split; [constructor|reflexivity].
    + unfold group_by. rewrite fold_left_app. simpl.
      fold (group_by key l). destruct (group_by key l) as [o'|m] eqn:E.
      * destruct (IH o' eq_refl) as [Hl ->]. simpl.
        destruct (is_prototype_key (key x)) eqn:Hp.
        -- unfold push_to, get.
           rewrite (own_grouped_inherited l (key x) Hl Hp), Hp. discriminate.
        -- rewrite (push_to_grouped key l x Hp). intros Ho. injection Ho as <-.
           split; [|reflexivity]. apply List.Forall_app. split; [exact Hl|].
           repeat constructor. exact Hp.
      * simpl. discriminate.
  - intros [Hl ->]. now apply group_by_grouped.
Qed.

Lemma with_key_filter (q : A -> bool) k l :
  with_key key k (List.filter q l) = List.filter q (with_key key k l).
Proof.
  unfold with_key. induction l as [|x l IH]; [reflexivity|]. simpl.
  destruct (q x) eqn:Hq; destruct (String.eqb (key x) k) eqn:Hk; simpl;
    rewrite ?Hq, ?Hk; now rewrite ?IH.
Qed.

End GroupingMore.

Section CategoryMore.
Import Js StoredItemsPage.
Context (localeCompare : string -> string -> Z).

Abbreviation by_name' :=
  (fun a b : string * list item => localeCompare (fst a) (fst b)).

Lemma groupedItems_Ok l gs :
  groupedItems localeCompare l = Ok gs <->
  Forall (fun i => is_prototype_key (category_key i) = false) l
  /\ gs = map (fun e => CategoryGroup (fst e) (snd e))
              (sort by_name' (entries (grouped category_key l))).
Proof.
  split.
  - unfold groupedItems. destruct (length l =? 0)%nat eqn:Hlen.
    + apply Nat.eqb_eq in Hlen. destruct l; [|discriminate].
      intros Ho. injection Ho as <-. split; [constructor|reflexivity].
    + destruct (group_by category_key l) as [o|m] eqn:E; simpl; [|discriminate].
      apply group_by_Ok in E as [Hl ->]. intros Ho. injection Ho as <-. auto.
  - intros [Hl ->]. now apply groupedItems_closed.
Qed.

Lemma In_groupedItems l gs g :
  groupedItems localeCompare l = Ok gs ->
  In g gs <->
  In (categoryName g) (map category_key l)
  /\ items g = with_key category_key (categoryName g) l.
Proof.
  intros Hgs. apply groupedItems_Ok in Hgs as [_ ->].
  rewrite in_map_iff. split.
  - intros (e & <- & He). simpl.
    eapply Permutation_in in He; [|apply sort_perm].
    eapply Permutation_in in He; [|apply entries_perm].
    now apply In_grouped in He.
  - intros [Hk Hi]. exists (categoryName g, items g). split; [now destruct g|].
    eapply Permutation_in; [symmetry; apply sort_perm|].
    eapply Permutation_in; [symmetry; apply entries_perm|].
    apply In_grouped. auto.
Qed.

(** X15.  The category view is produced exactly when no item's category
    key names a property that plain objects inherit; one item keyed
    ["constructor"], ["toString"] and the like makes it throw. *)
Theorem groupedItems_throws_iff_inherited_key l :
  (exists gs, groupedItems localeCompare l = Ok gs)
  <-> Forall (fun i => is_prototype_key (category_key i) = false) l.
Proof.
  split.
  - intros (gs & Hgs). now apply groupedItems_Ok in Hgs.
  - intros Hl. eexists. now apply groupedItems_closed.
Qed.

(** X16.  The category view shows every item exactly once: its groups
    laid end to end are a rearrangement of the item list. *)
Theorem category_view_shows_each_item_once l gs :
  groupedItems localeCompare l = Ok gs ->
  Permutation (concat (map items gs)) l.
Proof.
  intros Hgs. apply groupedItems_Ok in Hgs as [_ ->].
  rewrite map_map. cbn [items].
  change (map (fun e : string * list item => snd e)) with (map (@snd string (list item))).
  rewrite <- (grouped_partition category_key l) at 2.
  apply concat_perm, Permutation_map.
  rewrite sort_perm. apply entries_perm.
Qed.

Lemma category_key_tidy i :
  category_key i <> ""%string
  /\ starts_with_space (category_key i) = false
  /\ ends_with_space (category_key i) = false.
Proof.
  unfold category_key. destruct (category i) as [c|].
  - destruct (String.eqb_spec (trim c) "") as [He|Hne].
    + repeat split. discriminate.
    + destruct (trim_spec c) as (_ & _ & _ & _ & _ & Hs & He). auto.
  - repeat split. discriminate.
Qed.

(** X17.  No group of the category view is empty, and no group is named
    by the empty string or by a name with white space at either end. *)
Theorem category_groups_are_named_and_inhabited l gs g :
  groupedItems localeCompare l = Ok gs -> In g gs ->
  items g <> []
  /\ categoryName g <> ""%string
  /\ starts_with_space (categoryName g) = false
  /\ ends_with_space (categoryName g) = false.
Proof.
  intros Hgs Hg. apply (In_groupedItems l gs g Hgs) in Hg as [Hk Hi].
  apply in_map_iff in Hk as (i & Hki & Hin). split.
  - rewrite Hi. intros Hnil.
    assert (Hmem : In i (with_key category_key (categoryName g) l)).
    { unfold with_key. apply List.filter_In. split; [exact Hin|].
      now apply String.eqb_eq. }
    rewrite Hnil in Hmem. destruct Hmem.
  - rewrite <- Hki. apply category_key_tidy.
Qed.

(** X18.  After a successful delete the item list holds no item with the
    deleted id and keeps the others in order; the category view then
    shows, for each remaining category, the group it showed before
    without the deleted item, and a category left without items is gone. *)
Theorem delete_then_regroup target (p : page) gs :
  groupedItems localeCompare (st_items p) = Ok gs ->
  let p' := handleDelete target Accepted p in
  st_items p' = List.filter (fun i => negb (id i =? target)) (st_items p)
  /\ exists gs',
       groupedItems localeCompare (st_items p') = Ok gs'
       /\ forall g', In g' gs' ->
            items g' <> []
            /\ Forall (fun i => id i <> target) (items g')
            /\ exists g, In g gs
                 /\ categoryName g = categoryName g'
                 /\ items g'
                    = List.filter (fun i => negb (id i =? target)) (items g).
Proof.
  intros Hgs p'. split; [reflexivity|].
  pose proof Hgs as Hgs0. apply groupedItems_Ok in Hgs0 as [Hl _].
  set (q := fun i : item => negb (id i =? target)).
  assert (Hl' : Forall (fun i => is_prototype_key (category_key i) = false)
                       (st_items p')).
  { apply List.Forall_forall. intros i Hi. apply List.filter_In in Hi as [Hi _].
    rewrite List.Forall_forall in Hl. now apply Hl. }
  eexists. split; [apply groupedItems_closed, Hl'|].
  intros g' Hg'.
  assert (Hgs' : groupedItems localeCompare (st_items p') = Ok
           (map (fun e => CategoryGroup (fst e) (snd e))
              (sort by_name' (entries (grouped category_key (st_items p'))))))
    by (apply groupedItems_closed, Hl').
  pose proof (category_groups_nonempty_aux := In_groupedItems _ _ g' Hgs').
  apply category_groups_nonempty_aux in Hg' as [Hk Hi].
  change (st_items p') with (List.filter q (st_items p)) in Hk, Hi.
  rewrite with_key_filter in Hi.
  apply in_map_iff in Hk as (i & Hki & Hin).
  apply List.filter_In in Hin as [Hin Hq].
  split; [|split].
  - rewrite Hi. intros Hnil.
    assert (Hmem : In i (List.filter q
                           (with_key category_key (categoryName g') (st_items p)))).
    { apply List.filter_In. split; [|exact Hq].
      unfold with_key. apply List.filter_In. split; [exact Hin|].
      now apply String.eqb_eq. }
    rewrite Hnil in Hmem. destruct Hmem.
  - rewrite Hi. apply List.Forall_forall. intros j Hj.
    apply List.filter_In in Hj as [_ Hj]. unfold q in Hj.
    apply negb_true_iff, Z.eqb_neq in Hj. exact Hj.
  - exists (CategoryGroup (categoryName g')
              (with_key category_key (categoryName g') (st_items p))).
    split; [|split; [reflexivity|exact Hi]].
    apply (In_groupedItems _ _ _ Hgs). simpl. split; [|reflexivity].
    rewrite <- Hki. now apply in_map.
Qed.

End CategoryMore.

(** Half past midnight on 1 November in New York, and a record dated
    half past one in the night after: a day on, although less than 26
    hours later. *)
Lemma future_date_is_last_7_days_witness :
  Timeline.day_number Samples.new_york Samples.november_morning
  < Timeline.day_number Samples.new_york Samples.november_after
  /\ Timeline.getTimelineGroup Samples.new_york Samples.november_morning
       Samples.november_after = "Last 7 Days"%string.
Proof.
  split; [reflexivity|].
  apply (future_date_is_last_7_days Samples.new_york new_york_midnights_exist
           Samples.november_morning Samples.november_after).
  reflexivity.
Defined.

Lemma timeline_reads_newest_first_witness :
  exists gs,
    Timeline.timelineGroups StoredItemsPage.created_at Samples.new_york
      Samples.november_night
      [Samples.hammer; Samples.torch; Samples.kettle] = Js.Ok gs
    /\ StronglySorted
         (fun a b => StoredItemsPage.created_at b <= StoredItemsPage.created_at a)
         (concat (map Timeline.records gs)).
Proof.
  apply (timeline_reads_newest_first StoredItemsPage.created_at Samples.new_york
           new_york_midnights_exist new_york_days_advance
           Samples.november_night
           [Samples.hammer; Samples.torch; Samples.kettle]).
  repeat constructor; vm_compute; discriminate.
Defined.

Example timeline_in_new_york :
  StoredItemsPage.timelineGroups Samples.new_york Samples.november_night
    [Samples.hammer; Samples.torch; Samples.kettle]
  = Js.Ok [ Timeline.Group "Today" [Samples.kettle];
            Timeline.Group "Yesterday" [Samples.torch];
            Timeline.Group "Earlier" [Samples.hammer] ].
Proof. reflexivity. Qed.

Lemma category_view_shows_each_item_once_witness :
  Permutation
    (concat (map StoredItemsPage.items
       [ StoredItemsPage.CategoryGroup "tools" [Samples.pliers];
         StoredItemsPage.CategoryGroup "Tools" [Samples.hammer; Samples.saw];
         StoredItemsPage.CategoryGroup "Uncategorized" [Samples.charger] ]))
    [Samples.hammer; Samples.pliers; Samples.charger; Samples.saw].
Proof.
  apply (category_view_shows_each_item_once Samples.collate
           [Samples.hammer; Samples.pliers; Samples.charger; Samples.saw]).
  vm_compute. reflexivity.
Defined.

Lemma category_groups_are_named_and_inhabited_witness :
  StoredItemsPage.items (StoredItemsPage.CategoryGroup "tools" [Samples.pliers])
    <> []
  /\ "tools"%string <> ""%string
  /\ Js.starts_with_space "tools" = false
  /\ Js.ends_with_space "tools" = false.
Proof.
  apply (category_groups_are_named_and_inhabited Samples.collate
           [Samples.hammer; Samples.pliers; Samples.charger; Samples.saw]
           [ StoredItemsPage.CategoryGroup "tools" [Samples.pliers];
             StoredItemsPage.CategoryGroup "Tools" [Samples.hammer; Samples.saw];
             StoredItemsPage.CategoryGroup "Uncategorized" [Samples.charger] ]
           (StoredItemsPage.CategoryGroup "tools" [Samples.pliers])).
  - vm_compute. reflexivity.
  - left. reflexivity.
Defined.

(** Deleting the pliers from the sample shed removes the group ["tools"]. *)
Lemma delete_then_regroup_witness :
  let p := StoredItemsPage.mirror_cache
             (Some [Samples.hammer; Samples.pliers; Samples.charger; Samples.saw])
             false StoredItemsPage.initial in
  let p' := StoredItemsPage.handleDelete 2 StoredItemsPage.Accepted p in
  StoredItemsPage.st_items p'
  = List.filter (fun i => negb (StoredItemsPage.id i =? 2))
      (StoredItemsPage.st_items p)
  /\ exists gs',
       StoredItemsPage.groupedItems Samples.collate (StoredItemsPage.st_items p')
       = Js.Ok gs'
       /\ forall g', In g' gs' ->
            StoredItemsPage.items g' <> []
            /\ Forall (fun i => StoredItemsPage.id i <> 2)
                 (StoredItemsPage.items g')
            /\ exists g,
                 In g [ StoredItemsPage.CategoryGroup "tools" [Samples.pliers];
                        StoredItemsPage.CategoryGroup "Tools"
                          [Samples.hammer; Samples.saw];
                        StoredItemsPage.CategoryGroup "Uncategorized"
                          [Samples.charger] ]
                 /\ StoredItemsPage.categoryName g = StoredItemsPage.categoryName g'
                 /\ StoredItemsPage.items g'
                    = List.filter (fun i => negb (StoredItemsPage.id i =? 2))
                        (StoredItemsPage.items g).
Proof.
  apply (delete_then_regroup Samples.collate 2
           (StoredItemsPage.mirror_cache
              (Some [Samples.hammer; Samples.pliers; Samples.charger; Samples.saw])
              false StoredItemsPage.initial)).
  vm_compute. reflexivity.
Defined.

(* ===================================================================== *)
(** * The form and the list of the documents page *)
(* ===================================================================== *)

Section DocumentsPageFacts.
Import Js ImportantDocumentsPage.
Context (createObjectURL : file -> string).



(** X20.  When the service declines a valid submit, the page shows the
    service's message (or a default), stops loading, and keeps the form
    and the list as they were; when the call is rejected instead, the
    page keeps loading and shows no error. *)
Theorem failed_submit_keeps_the_form p :
  missing_required (the_form p) = false ->
  (forall e,
     let p' := handleSubmit (Declined e) p in
     the_form p' = the_form p
     /\ the_listing p' = the_listing p
     /\ loading (the_banner p') = false
     /\ error (the_banner p') = Some (or_default e "Failed to add document")
     /\ or_default e "Failed to add document" <> ""%string)
  /\ (let p' := handleSubmit Thrown p in
      the_form p' = the_form p
      /\ the_listing p' = the_listing p
      /\ loading (the_banner p') = true
      /\ error (the_banner p') = Some ""%string).
Proof.
  intros Hm. unfold handleSubmit. rewrite Hm. split.
  - intros e. repeat split. unfold or_default.
    destruct e as [e|]; [|discriminate].
    destruct (String.eqb_spec e ""); [discriminate|assumption].
  - repeat split.
Qed.

Lemma replace_document_lookup target data docs n d :
  nth_error docs n = Some d ->
  nth_error (replace_document target data docs) n
  = Some (if id d =? target then data else d).
Proof.
  intros Hn. unfold replace_document.
  now rewrite nth_error_map, Hn.
Qed.

(** X21.  A saved update puts the service's record at every position
    whose document has the id of the edited one and leaves every other
    position alone: the list keeps its length, keeps its ids when the
    service returns the same id, and is unchanged when the edited
    document is no longer listed.  The form is reset. *)
Theorem handleUpdate_replaces_in_place data e p :
  editingDoc (the_form p) = Some e ->
  let docs := documents (the_listing p) in
  let p' := handleUpdate (Saved data) p in
  let docs' := documents (the_listing p') in
  length docs' = length docs
  /\ (forall n d, nth_error docs n = Some d ->
        nth_error docs' n = Some (if id d =? id e then data else d))
  /\ (id data = id e -> map id docs' = map id docs)
  /\ (Forall (fun d => id d <> id e) docs -> docs' = docs)
  /\ updated (the_requests p')
     = updated (the_requests p)
       ++ [(id e, Changes (documentName (the_form p))
                    (documentType (the_form p)) (notes_field (the_form p)))]
  /\ editingDoc (the_form p') = None.
Proof.
  intros He docs p' docs'. subst docs p' docs'.
  unfold handleUpdate. rewrite He. cbn.
  split; [apply length_map|].
  split; [intros n d; apply replace_document_lookup|].
  split; [|split; [|split; reflexivity]].
  - intros Hid. unfold replace_document. rewrite map_map.
    apply map_ext. intros d. destruct (Z.eqb_spec (id d) (id e)); congruence.
  - intros Hall. unfold replace_document.
    induction Hall as [|d l Hd _ IH]; [reflexivity|]. simpl.
    destruct (Z.eqb_spec (id d) (id e)); [contradiction|]. now rewrite IH.
Qed.

(** X22.  A confirmed delete that the service accepts removes from the
    list exactly the documents with the confirmed id, keeps the others in
    their order, asks the service once, and closes the dialog; the form
    is not touched, also when it is editing the deleted document. *)
Theorem handleDelete_removes_confirmed_document target p :
  deleteId (the_listing p) = Some target -> target <> 0 ->
  let p' := handleDelete Accepted p in
  documents (the_listing p')
  = List.filter (fun d => negb (id d =? target)) (documents (the_listing p))
  /\ (forall d, In d (documents (the_listing p'))
        <-> In d (documents (the_listing p)) /\ id d <> target)
  /\ removed (the_requests p') = removed (the_requests p) ++ [target]
  /\ deleteId (the_listing p') = None
  /\ deleting (the_listing p') = false
  /\ the_form p' = the_form p.
Proof.
  intros Hid Hne p'. subst p'. unfold handleDelete. rewrite Hid.
  unfold truthy_id. destruct (Z.eqb_spec target 0) as [|_]; [contradiction|].
  cbn. split; [reflexivity|]. split; [|repeat split].
  intros d. unfold without_document. rewrite List.filter_In, negb_true_iff.
  now rewrite Z.eqb_neq.
Qed.

Lemma accept_image_checked fl p :
  acceptable fl -> image_checked createObjectURL p ->
  image_checked createObjectURL (accept_image createObjectURL fl p).
Proof.
  intros Hfl [_ Hadded]. split; [|exact Hadded]. cbn. auto.
Qed.

Lemma handle_checked a p :
  image_checked createObjectURL p ->
  image_checked createObjectURL (handle createObjectURL a p).
Proof.
  intros Hp. pose proof Hp as [Hform Hadded].
  destruct a as [v|v|v|files| | |files| | | |doc|r u|target| |r|docs]; cbn [handle];
    try (split; [exact Hform|exact Hadded]).
  - destruct files as [|fl files]; [exact Hp|]. cbn [handleImageChange].
    destruct (startsWith (file_type fl) "image/") eqn:Hty; cbn [negb];
      [|split; [exact Hform|exact Hadded]].
    destruct (file_size fl >? tenMegabytes) eqn:Hsz;
      [split; [exact Hform|exact Hadded]|].
    apply accept_image_checked; [|exact Hp].
    split; [exact Hty|]. rewrite Z.gtb_ltb in Hsz. apply Z.ltb_ge in Hsz. exact Hsz.
  - unfold handleDrop. destruct files as [|fl files];
      [split; [exact Hform|exact Hadded]|].
    destruct (startsWith (file_type fl) "image/") eqn:Hty;
      [|split; [exact Hform|exact Hadded]].
    destruct (file_size fl >? tenMegabytes) eqn:Hsz;
      [split; [exact Hform|exact Hadded]|].
    apply accept_image_checked; [|split; [exact Hform|exact Hadded]].
    split; [exact Hty|]. rewrite Z.gtb_ltb in Hsz. apply Z.ltb_ge in Hsz. exact Hsz.
  - split; [reflexivity|exact Hadded].
  - split; [reflexivity|exact Hadded].
  - destruct (editingDoc (the_form p)) as [e|] eqn:He.
    + unfold handleUpdate. rewrite He.
      destruct u; cbn; (split; [first [reflexivity|exact Hform]|exact Hadded]).
    + unfold handleSubmit. destruct (missing_required (the_form p));
        [split; [exact Hform|exact Hadded]|].
      assert (Hadded' :
        Forall (fun a => match add_image a with
                         | Some fl => acceptable fl
                         | None => True
                         end)
          (added (the_requests p)
           ++ [Addition (documentName (the_form p)) (documentType (the_form p))
                 (notes_field (the_form p)) (imageFile (the_form p))])).
      { apply List.Forall_app. split; [exact Hadded|]. repeat constructor.
        cbn. destruct (imageFile (the_form p)); [apply Hform|exact I]. }
      destruct r; cbn; (split; [first [reflexivity|exact Hform]|exact Hadded']).
  - unfold handleDelete. destruct (deleteId (the_listing p)) as [t|]; [|exact Hp].
    destruct (negb (truthy_id (Some t))); [exact Hp|].
    destruct r; cbn; (split; [exact Hform|exact Hadded]).
Qed.

(** X23.  Whatever the user does with the form and the list, the image
    the form carries is a file of type [image/...] of at most ten
    megabytes shown with its own preview, or there is neither image nor
    preview; and [addDocument] is never handed any other kind of file. *)
Theorem attached_image_is_checked trace :
  image_checked createObjectURL (drive createObjectURL trace initial).
Proof.
  assert (Hgen : forall p, image_checked createObjectURL p ->
             image_checked createObjectURL (drive createObjectURL trace p)).
  { induction trace as [|a trace IH]; intros p Hp; [exact Hp|].
    cbn [drive fold_left]. apply IH, handle_checked, Hp. }
  apply Hgen. split; [reflexivity|constructor].
Qed.

End DocumentsPageFacts.

(* ===================================================================== *)
(** * The name of a downloaded file *)
(* ===================================================================== *)

Section DownloadFacts.
Import Js ImportantDocumentsPage.

Lemma all_chars_app p a b :
  all_chars p (a ++ b) = all_chars p a && all_chars p b.
Proof.
  induction a as [|c a IH]; [reflexivity|].
  rewrite append_cons. cbn [all_chars]. now rewrite IH, andb_assoc.
Qed.

Lemma all_chars_impl (p q : ascii -> bool) s :
  (forall c, p c = true -> q c = true) ->
  all_chars p s = true -> all_chars q s = true.
Proof.
  intros Hpq. induction s as [|c s IH]; [reflexivity|]. cbn [all_chars].
  rewrite !andb_true_iff. intros [Hc Hs]. auto.
Qed.

Lemma split_nonempty sep s : split sep s <> [].
Proof.
  destruct s as [|c s]; [discriminate|]. cbn [split].
  destruct (Ascii.eqb c sep); [discriminate|].
  destruct (split sep s); discriminate.
Qed.

(** The parts of a split are pieces of the string. *)
Lemma split_all_chars p sep s :
  all_chars p s = true ->
  Forall (fun part => all_chars p part = true) (split sep s).
Proof.
  induction s as [|c s IH]; intros Hs; [repeat constructor|].
  cbn [all_chars] in Hs. apply andb_true_iff in Hs as [Hc Hs].
  specialize (IH Hs). cbn [split].
  destruct (Ascii.eqb c sep); [constructor; [reflexivity|exact IH]|].
  destruct (split sep s) as [|h t]; [repeat constructor; cbn; now rewrite Hc|].
  inversion IH as [|? ? Hh Ht]; subst. constructor; [|exact Ht].
  cbn [all_chars]. now rewrite Hc, Hh.
Qed.

(** No part of a split holds the separator. *)
Lemma split_no_sep sep s :
  Forall (fun part => all_chars (fun c => negb (Ascii.eqb c sep)) part = true)
         (split sep s).
Proof.
  induction s as [|c s IH]; [repeat constructor|]. cbn [split].
  destruct (Ascii.eqb c sep) eqn:Hc; [constructor; [reflexivity|exact IH]|].
  destruct (split sep s) as [|h t]; [repeat constructor; cbn; now rewrite Hc|].
  inversion IH as [|? ? Hh Ht]; subst. constructor; [|exact Ht].
  cbn [all_chars]. now rewrite Hc, Hh.
Qed.

Lemma split_without_sep sep s :
  all_chars (fun c => negb (Ascii.eqb c sep)) s = true -> split sep s = [s].
Proof.
  induction s as [|c s IH]; [reflexivity|]. cbn [all_chars split].
  intros Hs. apply andb_true_iff in Hs as [Hc Hs].
  apply negb_true_iff in Hc. rewrite Hc, (IH Hs). reflexivity.
Qed.

Lemma split_at_sep sep a b :
  all_chars (fun c => negb (Ascii.eqb c sep)) a = true ->
  split sep (a ++ String sep b) = a :: split sep b.
Proof.
  induction a as [|c a IH].
  - intros _. rewrite append_nil. cbn [split]. now rewrite Ascii.eqb_refl.
  - cbn [all_chars]. intros Hs. apply andb_true_iff in Hs as [Hc Hs].
    apply negb_true_iff in Hc. rewrite append_cons. cbn [split].
    now rewrite Hc, (IH Hs).
Qed.

Lemma Forall_last {A} (P : A -> Prop) l d :
  Forall P l -> l <> [] -> P (List.last l d).
Proof.
  intros Hl Hne. induction Hl as [|x l Hx Hl IH]; [contradiction|].
  destruct l as [|y l]; [exact Hx|]. apply IH. discriminate.
Qed.

Lemma Forall_hd {A} (P : A -> Prop) l d :
  Forall P l -> l <> [] -> P (List.hd d l).
Proof. intros Hl Hne. destruct Hl; [contradiction|assumption]. Qed.

(** The extension is never empty and holds neither a dot nor a question
    mark. *)
Lemma extension_spec image_url :
  extension image_url <> ""%string
  /\ all_chars (fun c => negb (Ascii.eqb c ".")) (extension image_url) = true
  /\ all_chars (fun c => negb (Ascii.eqb c "?")) (extension image_url) = true.
Proof.
  unfold extension.
  set (last_part := List.last (split "." image_url) EmptyString).
  set (ext := List.hd EmptyString (split "?" last_part)).
  destruct (String.eqb_spec ext "") as [|Hne];
    [split; [discriminate|split; reflexivity]|].
  split; [exact Hne|]. split.
  - apply (Forall_hd (fun part => all_chars _ part = true));
      [|apply split_nonempty].
    apply split_all_chars.
    apply (Forall_last (fun part => all_chars _ part = true));
      [apply split_no_sep|apply split_nonempty].
  - apply (Forall_hd (fun part => all_chars _ part = true));
      [apply split_no_sep|apply split_nonempty].
Qed.

Lemma replace_non_alnum_chars s :
  all_chars (fun c => is_alnum c || Ascii.eqb c "_") (replace_non_alnum s) = true.
Proof.
  induction s as [|c s IH]; [reflexivity|]. cbn [replace_non_alnum all_chars].
  rewrite IH, andb_true_r. destruct (is_alnum c) eqn:Hc; [now rewrite Hc|].
  reflexivity.
Qed.

Lemma replace_non_alnum_length s :
  String.length (replace_non_alnum s) = String.length s.
Proof. induction s as [|c s IH]; [reflexivity|]. cbn. now rewrite IH. Qed.

Lemma replace_non_alnum_fixed s :
  all_chars (fun c => is_alnum c || Ascii.eqb c "_") s = true ->
  replace_non_alnum s = s.
Proof.
  induction s as [|c s IH]; [reflexivity|]. cbn [all_chars replace_non_alnum].
  intros Hs. apply andb_true_iff in Hs as [Hc Hs]. rewrite (IH Hs).
  destruct (is_alnum c); [reflexivity|]. cbn in Hc.
  apply Ascii.eqb_eq in Hc. now subst c.
Qed.

Lemma substring_chars p n s :
  all_chars p s = true -> all_chars p (String.substring 0 n s) = true.
Proof.
  revert s. induction n as [|n IH]; intros [|c s] Hs; try reflexivity.
  cbn [all_chars] in Hs. apply andb_true_iff in Hs as [Hc Hs].
  cbn [String.substring all_chars]. now rewrite Hc, (IH s Hs).
Qed.

Lemma substring_length n s :
  String.length (String.substring 0 n s) = Nat.min n (String.length s).
Proof.
  revert s. induction n as [|n IH]; intros [|c s]; try reflexivity.
  cbn [String.substring String.length]. now rewrite IH.
Qed.

Lemma substring_short n s :
  (String.length s <= n)%nat -> String.substring 0 n s = s.
Proof.
  revert s. induction n as [|n IH]; intros [|c s] Hs; try reflexivity;
    cbn [String.length] in Hs; [lia|].
  cbn [String.substring]. rewrite IH; [reflexivity|lia].
Qed.

Lemma sanitizedName_chars document_name :
  all_chars (fun c => is_alnum c || Ascii.eqb c "_")
            (sanitizedName document_name) = true.
Proof. apply substring_chars, replace_non_alnum_chars. Qed.

Lemma alnum_is_no_dot c :
  is_alnum c || Ascii.eqb c "_" = true -> negb (Ascii.eqb c ".") = true.
Proof.
  intros Hc. apply negb_true_iff, Ascii.eqb_neq. intros ->. discriminate.
Qed.

(** X24.  The sanitized name has the first fifty characters of the
    document name at most, each an ASCII letter, a digit or an
    underscore; a name that is already so and not longer is kept, so
    sanitizing twice changes nothing more. *)
Theorem sanitizedName_safe document_name :
  let name := sanitizedName document_name in
  String.length name = Nat.min 50 (String.length document_name)
  /\ all_chars (fun c => is_alnum c || Ascii.eqb c "_") name = true
  /\ sanitizedName name = name.
Proof.
  intros name. subst name. unfold sanitizedName.
  assert (Hlen : String.length
                   (String.substring 0 50 (replace_non_alnum document_name))
                 = Nat.min 50 (String.length document_name))
    by now rewrite substring_length, replace_non_alnum_length.
  assert (Hch : all_chars (fun c => is_alnum c || Ascii.eqb c "_")
                  (String.substring 0 50 (replace_non_alnum document_name))
                = true)
    by apply substring_chars, replace_non_alnum_chars.
  split; [exact Hlen|]. split; [exact Hch|].
  rewrite (replace_non_alnum_fixed _ Hch). apply substring_short. lia.
Qed.

(** X25.  The download name holds exactly one dot: split at the dot it
    gives back the sanitized name and the extension, and the extension
    is never empty and holds no question mark. *)
Theorem download_name_has_one_dot document_name image_url :
  split "." (download_name document_name image_url)
  = [sanitizedName document_name; extension image_url]
  /\ extension image_url <> ""%string
  /\ all_chars (fun c => negb (Ascii.eqb c "?")) (extension image_url) = true.
Proof.
  destruct (extension_spec image_url) as (Hne & Hdot & Hq).
  split; [|split; assumption].
  unfold download_name.
  change ("." ++ extension image_url)%string
    with (String "." (extension image_url)).
  rewrite split_at_sep.
  - now rewrite (split_without_sep _ _ Hdot).
  - eapply all_chars_impl; [|apply sanitizedName_chars].
    apply alnum_is_no_dot.
Qed.

End DownloadFacts.

(* ===================================================================== *)
(** * Debouncing of the suggestion requests *)
(* ===================================================================== *)

Section DebounceFacts.
Import Js ImportantDocumentsPage.

Lemma run_app tr1 tr2 s : run (tr1 ++ tr2) s = run tr2 (run tr1 s).
Proof. unfold run. apply fold_left_app. Qed.

Lemma last_cons_default {A} (l : list A) : forall x d,
  List.last (x :: l) d = List.last l x.
Proof.
  induction l as [|y l IH]; intros x d; [reflexivity|].
  change (List.last (x :: y :: l) d) with (List.last (y :: l) d).
  now rewrite (IH y d), (IH y x).
Qed.

(** While the user keeps typing, the pending timer is the one of the
    latest change and nothing is asked of the service. *)
Lemma typing_rearms keys : forall t q s,
  searchQuery s = q -> debounceTimer s = Some (t + debounce, q) ->
  rapid t q keys = true ->
  let s' := run (typing keys) s in
  searchQuery s' = snd (List.last keys (t, q))
  /\ debounceTimer s'
     = Some (fst (List.last keys (t, q)) + debounce, snd (List.last keys (t, q)))
  /\ requested s' = requested s
  /\ inflight s' = inflight s.
Proof.
  induction keys as [|[t' q'] keys IH]; intros t q s Hq Htimer Hrapid.
  - cbn. auto.
  - cbn [rapid] in Hrapid.
    apply andb_true_iff in Hrapid as [Hrapid Hrest].
    apply andb_true_iff in Hrapid as [Hrapid Hne].
    apply andb_true_iff in Hrapid as [Hle Hlt].
    apply Z.ltb_lt in Hlt. apply negb_true_iff, String.eqb_neq in Hne.
    cbn [typing flat_map app fst snd run fold_left step].
    rewrite Htimer.
    destruct (t + debounce <=? t') eqn:Hdue; [apply Z.leb_le in Hdue; lia|].
    rewrite (setSearchQuery_arms t' q' s) by congruence.
    match goal with
    | |- context [fold_left _ _ ?s1] =>
        destruct (IH t' q' s1 eq_refl eq_refl Hrest) as (H1 & H2 & H3 & H4)
    end.
    replace (List.last ((t', q') :: keys) (t, q))
      with (List.last keys (t', q')).
    + unfold run, typing in H1, H2, H3, H4. cbn [requested inflight] in H3, H4.
      auto.
    + symmetry. apply last_cons_default.
Qed.

(** X26.  Debouncing.  However many changes of the query follow one
    another, each less than 150 ms after the one before, the service is
    asked nothing while they last; once 150 ms pass without a change it
    is asked exactly once, for the final query, or not at all when the
    final query has fewer than two characters. *)
Theorem burst_of_changes_fetches_once s t0 q0 keys t_end :
  q0 <> searchQuery s ->
  rapid t0 q0 keys = true ->
  fst (List.last keys (t0, q0)) + 150 <= t_end ->
  let final := snd (List.last keys (t0, q0)) in
  requested (run (Change t0 q0 :: typing keys) s) = requested s
  /\ requested (run (Change t0 q0 :: typing keys ++ [Elapse t_end]) s)
     = requested s ++ (if (String.length final <? 2)%nat then [] else [final])
  /\ debounceTimer (run (Change t0 q0 :: typing keys ++ [Elapse t_end]) s)
     = None.
Proof.
  intros Hne Hrapid Hend final. subst final.
  change (run (Change t0 q0 :: typing keys) s)
    with (run (typing keys) (step (Change t0 q0) s)).
  change (run (Change t0 q0 :: typing keys ++ [Elapse t_end]) s)
    with (run (typing keys ++ [Elapse t_end]) (step (Change t0 q0) s)).
  rewrite run_app. cbn [step]. rewrite (setSearchQuery_arms t0 q0 s Hne).
  match goal with
  | |- context [run (typing keys) ?s1] =>
      destruct (typing_rearms keys t0 q0 s1 eq_refl eq_refl Hrapid)
        as (H1 & H2 & H3 & H4);
      set (s' := run (typing keys) s1) in *
  end.
  cbn [requested] in H3. split; [exact H3|].
  change (run [Elapse t_end] s') with (step (Elapse t_end) s').
  cbn [step]. rewrite H2. unfold debounce.
  destruct (fst (List.last keys (t0, q0)) + 150 <=? t_end) eqn:Hdue;
    [|apply Z.leb_gt in Hdue; lia].
  unfold fetchSuggestions.
  destruct (String.length (snd (List.last keys (t0, q0))) <? 2)%nat;
    cbn [requested debounceTimer]; rewrite H3, ?app_nil_r; auto.
Qed.

(** X27.  Choosing a suggestion closes and empties the panel, but it
    also changes the query: 150 ms later the service is asked for the
    chosen name, and a non-empty answer opens the panel again. *)
Theorem selecting_a_suggestion_asks_again s t doc t' data :
  document_name doc <> searchQuery s ->
  (2 <= String.length (document_name doc))%nat ->
  t + 150 <= t' ->
  data <> [] ->
  let s1 := step (Select t doc) s in
  let s2 := step (Elapse t') s1 in
  let s3 := step (Respond (length (inflight s)) (Replied true data)) s2 in
  cleared_and_hidden s1
  /\ requested s2 = requested s ++ [document_name doc]
  /\ showSuggestions s3 = true
  /\ suggestions s3 = data.
Proof.
  intros Hne Hlen Hdue Hdata s1 s2 s3. subst s1 s2 s3.
  cbn [step]. rewrite (setSearchQuery_arms t _ s Hne).
  cbn [setShowSuggestions setSuggestions debounceTimer searchQuery suggestions
       showSuggestions loadingSuggestions inflight requested].
  unfold debounce.
  destruct (t + 150 <=? t') eqn:E; [|apply Z.leb_gt in E; lia].
  unfold fetchSuggestions.
  destruct (String.length (document_name doc) <? 2)%nat eqn:El;
    [apply Nat.ltb_lt in El; lia|].
  cbn [setShowSuggestions setSuggestions debounceTimer searchQuery suggestions
       showSuggestions loadingSuggestions inflight requested].
  split; [split; reflexivity|]. split; [reflexivity|].
  unfold resume.
  cbn [setShowSuggestions setSuggestions debounceTimer searchQuery suggestions
       showSuggestions loadingSuggestions inflight requested].
  assert (Hlook : (inflight s ++ [document_name doc]) !! length (inflight s)
                  = Some (document_name doc)).
  { rewrite lookup_app_r by lia. now rewrite Nat.sub_diag. }
  rewrite Hlook.
  destruct data as [|d data]; [contradiction|]. cbn. auto.
Qed.

End DebounceFacts.

(** The design's own scenario: three changes within 50 ms of each other,
    then silence. *)
Lemma burst_of_changes_fetches_once_witness :
  let keys := [(60, "pa"%string); (110, "pas"%string)] in
  let s := ImportantDocumentsPage.mount 0 in
  ImportantDocumentsPage.requested
    (ImportantDocumentsPage.run
       (ImportantDocumentsPage.Change 10 "p"
        :: ImportantDocumentsPage.typing keys) s) = []
  /\ ImportantDocumentsPage.requested
       (ImportantDocumentsPage.run
          (ImportantDocumentsPage.Change 10 "p"
           :: ImportantDocumentsPage.typing keys
           ++ [ImportantDocumentsPage.Elapse 260]) s) = ["pas"%string]
  /\ ImportantDocumentsPage.debounceTimer
       (ImportantDocumentsPage.run
          (ImportantDocumentsPage.Change 10 "p"
           :: ImportantDocumentsPage.typing keys
           ++ [ImportantDocumentsPage.Elapse 260]) s) = None.
Proof.
  apply (burst_of_changes_fetches_once (ImportantDocumentsPage.mount 0) 10 "p"
           [(60, "pa"%string); (110, "pas"%string)] 260).
  - discriminate.
  - reflexivity.
  - vm_compute. discriminate.
Defined.

Lemma selecting_a_suggestion_asks_again_witness :
  let s := ImportantDocumentsPage.run
             [ ImportantDocumentsPage.Change 10 "pa";
               ImportantDocumentsPage.Elapse 160;
               ImportantDocumentsPage.Respond 0
                 (ImportantDocumentsPage.Replied true [Samples.passport]) ]
             (ImportantDocumentsPage.mount 0) in
  let s1 := ImportantDocumentsPage.step
              (ImportantDocumentsPage.Select 500 Samples.passport) s in
  let s2 := ImportantDocumentsPage.step (ImportantDocumentsPage.Elapse 650) s1 in
  let s3 := ImportantDocumentsPage.step
              (ImportantDocumentsPage.Respond 0
                 (ImportantDocumentsPage.Replied true [Samples.passport])) s2 in
  ImportantDocumentsPage.cleared_and_hidden s1
  /\ ImportantDocumentsPage.requested s2 = ["pa"; "Passport"]%string
  /\ ImportantDocumentsPage.showSuggestions s3 = true
  /\ ImportantDocumentsPage.suggestions s3 = [Samples.passport].
Proof.
  apply (selecting_a_suggestion_asks_again
           (ImportantDocumentsPage.run
              [ ImportantDocumentsPage.Change 10 "pa";
                ImportantDocumentsPage.Elapse 160;
                ImportantDocumentsPage.Respond 0
                  (ImportantDocumentsPage.Replied true [Samples.passport]) ]
              (ImportantDocumentsPage.mount 0))
           500 Samples.passport 650 [Samples.passport]).
  - discriminate.
  - vm_compute. lia.
  - lia.
  - discriminate.
Defined.

(* ===================================================================== *)
(** * The lazily loaded image *)
(* ===================================================================== *)

Section LazyImageFacts.
Import LazyImage.

Lemma step_keeps_error e i :
  hasError i = true ->
  hasError (step e i) = true /\ isLoaded (step e i) = isLoaded i.
Proof.
  intros He.
  assert (Himg : img_rendered i = false).
  { unfold img_rendered, wrapper_rendered. rewrite He, orb_true_r. reflexivity. }
  destruct e as [b| | |v]; cbn [step].
  - destruct (observing i && b); auto.
  - rewrite Himg. auto.
  - rewrite Himg. auto.
  - destruct (option_string_eqb v (src i)); auto.
Qed.

(** X28.  A failed image is final: once [onError] has fired, the
    component never renders an [img] again and never counts as loaded
    anew, whatever [src] its parent passes later. *)
Theorem image_error_is_final trace i :
  hasError i = true ->
  hasError (run trace i) = true
  /\ img_rendered (run trace i) = false
  /\ isLoaded (run trace i) = isLoaded i.
Proof.
  revert i. induction trace as [|e trace IH]; intros i He.
  - cbn. repeat split; [exact He|].
    unfold img_rendered, wrapper_rendered. now rewrite He, orb_true_r.
  - cbn [run fold_left]. destruct (step_keeps_error e i He) as [He' Hl].
    destruct (IH (step e i) He') as (H1 & H2 & H3).
    unfold run in H1, H2, H3. rewrite <- Hl. auto.
Qed.

Lemma step_before_view e i :
  e <> Intersect true ->
  isInView i = false -> isLoaded i = false -> hasError i = false ->
  isInView (step e i) = false /\ isLoaded (step e i) = false
  /\ hasError (step e i) = false.
Proof.
  intros Hne Hv Hl He.
  assert (Himg : img_rendered i = false).
  { unfold img_rendered. rewrite Hv. apply andb_false_r. }
  destruct e as [b| | |v]; cbn [step].
  - destruct b; [contradiction|]. rewrite andb_false_r. auto.
  - rewrite Himg. auto.
  - rewrite Himg. auto.
  - destruct (option_string_eqb v (src i)); auto.
Qed.

(** X29.  Nothing is requested before the wrapper has been seen: until
    the observer reports an intersection, the component renders no [img],
    so neither [onLoad] nor [onError] can have fired. *)
Theorem no_img_before_intersection v trace :
  Forall (fun e => e <> Intersect true) trace ->
  let i := run trace (mount v) in
  img_rendered i = false
  /\ isInView i = false /\ isLoaded i = false /\ hasError i = false.
Proof.
  intros Htrace i. subst i.
  assert (Hgen : forall i, isInView i = false -> isLoaded i = false ->
                           hasError i = false ->
                           isInView (run trace i) = false
                           /\ isLoaded (run trace i) = false
                           /\ hasError (run trace i) = false).
  { induction Htrace as [|e trace He _ IH]; intros i Hv Hl Herr; [cbn; auto|].
    cbn [run fold_left].
    destruct (step_before_view e i He Hv Hl Herr) as (H1 & H2 & H3).
    apply (IH (step e i) H1 H2 H3). }
  destruct (Hgen (mount v) eq_refl eq_refl eq_refl) as (H1 & H2 & H3).
  repeat split; try assumption.
  unfold img_rendered. rewrite H1. apply andb_false_r.
Qed.

End LazyImageFacts.

Lemma image_error_is_final_witness :
  let broken := LazyImage.run [LazyImage.Intersect true; LazyImage.Error]
                  (LazyImage.mount (Some "a.png"%string)) in
  let later := LazyImage.run
                 [LazyImage.NewSrc (Some "b.png"%string);
                  LazyImage.Intersect true; LazyImage.Load] broken in
  LazyImage.hasError later = true
  /\ LazyImage.img_rendered later = false
  /\ LazyImage.isLoaded later = LazyImage.isLoaded broken.
Proof.
  apply (image_error_is_final
           [LazyImage.NewSrc (Some "b.png"%string);
            LazyImage.Intersect true; LazyImage.Load]
           (LazyImage.run [LazyImage.Intersect true; LazyImage.Error]
              (LazyImage.mount (Some "a.png"%string)))).
  reflexivity.
Defined.

Lemma no_img_before_intersection_witness :
  let i := LazyImage.run
             [LazyImage.Intersect false; LazyImage.Load;
              LazyImage.NewSrc (Some "b.png"%string); LazyImage.Error]
             (LazyImage.mount (Some "a.png"%string)) in
  LazyImage.img_rendered i = false
  /\ LazyImage.isInView i = false /\ LazyImage.isLoaded i = false
  /\ LazyImage.hasError i = false.
Proof.
  apply (no_img_before_intersection (Some "a.png"%string)
           [LazyImage.Intersect false; LazyImage.Load;
            LazyImage.NewSrc (Some "b.png"%string); LazyImage.Error]).
  repeat constructor; discriminate.
Defined.

(* ===================================================================== *)
(** * Navigation *)
(* ===================================================================== *)

Section NavigationFacts.
Import App Navbar.

Lemma protected_destinations item :
  In item protectedNavItems ->
  exists page, AppContent false true (nav_id item) = ["Navbar"; page]%string.
Proof.
  intros Hin. cbn in Hin.
  repeat (destruct Hin as [<-|Hin]; [eexists; reflexivity|]).
  destruct Hin.
Qed.

Lemma on_click_lands c b :
  (exists page, AppContent false true (currentPage b) = ["Navbar"; page]%string) ->
  exists page,
    AppContent false true (currentPage (on_click true c b))
    = ["Navbar"; page]%string.
Proof.
  intros Hb. destruct c as [n| | | |y]; cbn [on_click]; try exact Hb.
  - destruct (nth_error (navItems true) n) as [item|] eqn:Hn; [|exact Hb].
    apply protected_destinations. cbn [handleNavClick currentPage].
    apply (nth_error_In _ _ Hn).
  - eexists. reflexivity.
  - eexists. reflexivity.
Qed.

(** X30.  For a signed-in user who moves about with the bar only, the
    application always shows the bar and exactly one page: every entry
    of the menu, the logo and the logout button lead to a page the
    application knows. *)
Theorem bar_always_lands_on_one_page clicks b :
  (exists page, AppContent false true (currentPage b) = ["Navbar"; page]%string) ->
  exists page,
    AppContent false true
      (currentPage (fold_left (fun b c => on_click true c b) clicks b))
    = ["Navbar"; page]%string.
Proof.
  revert b. induction clicks as [|c clicks IH]; intros b Hb; [exact Hb|].
  cbn [fold_left]. apply IH, on_click_lands, Hb.
Qed.

End NavigationFacts.

Lemma bar_always_lands_on_one_page_witness :
  exists page,
    App.AppContent false true
      (Navbar.currentPage
         (fold_left (fun b c => Navbar.on_click true c b)
            [Navbar.ClickMenuButton; Navbar.ClickItem 2; Navbar.Scroll 40;
             Navbar.ClickItem 7; Navbar.ClickLogo]
            (Navbar.Bar App.initialPage false false)))
    = ["Navbar"; page]%string.
Proof.
  apply (bar_always_lands_on_one_page
           [Navbar.ClickMenuButton; Navbar.ClickItem 2; Navbar.Scroll 40;
            Navbar.ClickItem 7; Navbar.ClickLogo]
           (Navbar.Bar App.initialPage false false)).
  exists "HomePage"%string. reflexivity.
Defined.

(* ===================================================================== *)
(** * The documents page at work *)
(* ===================================================================== *)

Lemma failed_submit_keeps_the_form_witness :
  (forall e,
     let p' := ImportantDocumentsPage.handleSubmit
                 (ImportantDocumentsPage.Declined e) Samples.filled in
     ImportantDocumentsPage.the_form p'
     = ImportantDocumentsPage.the_form Samples.filled
     /\ ImportantDocumentsPage.the_listing p'
        = ImportantDocumentsPage.the_listing Samples.filled
     /\ ImportantDocumentsPage.loading (ImportantDocumentsPage.the_banner p')
        = false
     /\ ImportantDocumentsPage.error (ImportantDocumentsPage.the_banner p')
        = Some (ImportantDocumentsPage.or_default e "Failed to add document")
     /\ ImportantDocumentsPage.or_default e "Failed to add document"
        <> ""%string)
  /\ (let p' := ImportantDocumentsPage.handleSubmit
                  ImportantDocumentsPage.Thrown Samples.filled in
      ImportantDocumentsPage.the_form p'
      = ImportantDocumentsPage.the_form Samples.filled
      /\ ImportantDocumentsPage.the_listing p'
         = ImportantDocumentsPage.the_listing Samples.filled
      /\ ImportantDocumentsPage.loading (ImportantDocumentsPage.the_banner p')
         = true
      /\ ImportantDocumentsPage.error (ImportantDocumentsPage.the_banner p')
         = Some ""%string).
Proof.
  apply (failed_submit_keeps_the_form Samples.filled). reflexivity.
Defined.

Lemma handleUpdate_replaces_in_place_witness :
  let docs := [Samples.passport; Samples.id_card; Samples.car_keys] in
  let p' := ImportantDocumentsPage.handleUpdate
              (ImportantDocumentsPage.Saved Samples.renewed) Samples.editing in
  let docs' := ImportantDocumentsPage.documents
                 (ImportantDocumentsPage.the_listing p') in
  length docs' = length docs
  /\ (forall n d, nth_error docs n = Some d ->
        nth_error docs' n
        = Some (if ImportantDocumentsPage.id d =? 1 then Samples.renewed else d))
  /\ (ImportantDocumentsPage.id Samples.renewed = 1 ->
      map ImportantDocumentsPage.id docs' = map ImportantDocumentsPage.id docs)
  /\ (Forall (fun d => ImportantDocumentsPage.id d <> 1) docs -> docs' = docs)
  /\ ImportantDocumentsPage.updated (ImportantDocumentsPage.the_requests p')
     = [(1, ImportantDocumentsPage.Changes "Passport 2030"
              (Some "passport"%string) "")]
  /\ ImportantDocumentsPage.editingDoc (ImportantDocumentsPage.the_form p')
     = None.
Proof.
  apply (handleUpdate_replaces_in_place Samples.renewed Samples.passport
           Samples.editing).
  reflexivity.
Defined.

Lemma handleDelete_removes_confirmed_document_witness :
  let p' := ImportantDocumentsPage.handleDelete ImportantDocumentsPage.Accepted
              Samples.confirming in
  ImportantDocumentsPage.documents (ImportantDocumentsPage.the_listing p')
  = [Samples.passport; Samples.car_keys]
  /\ (forall d,
        In d (ImportantDocumentsPage.documents
                (ImportantDocumentsPage.the_listing p'))
        <-> In d [Samples.passport; Samples.id_card; Samples.car_keys]
            /\ ImportantDocumentsPage.id d <> 2)
  /\ ImportantDocumentsPage.removed (ImportantDocumentsPage.the_requests p')
     = [2]
  /\ ImportantDocumentsPage.deleteId (ImportantDocumentsPage.the_listing p')
     = None
  /\ ImportantDocumentsPage.deleting (ImportantDocumentsPage.the_listing p')
     = false
  /\ ImportantDocumentsPage.the_form p'
     = ImportantDocumentsPage.the_form Samples.confirming.
Proof.
  apply (handleDelete_removes_confirmed_document 2 Samples.confirming).
  - reflexivity.
  - discriminate.
Defined.
